(** * Points, levels, participation and achievements of the student portal

    A shallow embedding of the gamification core of the backend:
    - [models/User.js]: [calculateLevel];
    - [models/Event.js]: [canParticipate], [getParticipantCount] and the
      pre-save status hook;
    - [models/Achievement.js]: [checkEligibility];
    - [controllers/eventController.js]: [participateInEvent],
      [removeParticipation], [awardPointsForEvent];
    - [controllers/achievementController.js]: [checkUserAchievements].

    Modelling conventions.
    - A JavaScript [Number] that holds a point value or a level is an
      integer of [Z]; array lengths are [nat].  The sums and differences of
      [Z] are those of the code on safe integers ([isSafeInteger]); a
      property that lets a subtraction undo an addition states that range.
      Fractional point values, which no schema validator excludes, are
      outside the model.
    - [maxParticipants] is a [Number] the code only compares with a length;
      it is a rational of [Q], so that a capacity such as 1.5, which the
      schema accepts, is a capacity of the model.
    - An [ObjectId] is a number of [N]; [a.toString() === b.toString()] on two
      ObjectIds is [N.eqb].  A document is stored under its [_id], so
      [event._id] and [user._id] are the keys the documents were loaded
      with.  Where a handler compares an ObjectId with a string of the
      request ([req.params.id] in [removeParticipation], [req.body.userId] in
      [awardPointsForEvent]) the string is an [IdString.t]; [req.user.id] is
      the [id] of a loaded document and so the string its [_id] prints.
      Requests carry ids Mongoose can cast; [findById] rejects any other
      before the handler has done anything.
    - The database is a record of finite maps; a request handler is a
      function from the database to a result and the database it leaves
      behind.  A handler works on the copies [findById] hands out and the
      database changes only at [save].  Requests are served one after the
      other, and the database accepts the documents it is asked to save.
    - [Date.now()] is the parameter [now] of a handler.
    - A document carries the fields the handlers read or write; names,
      descriptions, categories and credentials are left out, and so are
      the schema validators, which no handler below trips on integers. *)

From Stdlib Require Import ZArith QArith List.
From stdpp Require Import gmap strings list fin_maps.

Local Open Scope Z_scope.

Abbreviation ObjectId := N.

(** A string of the request that stands for an ObjectId, as far as a
    handler looks at it: the ObjectId Mongoose casts it to, and whether it
    is the string [toString()] prints for that ObjectId (24 lower-case
    hexadecimal digits).  The same digits in upper case are cast to the
    same ObjectId and are another string. *)
Module IdString.
Record t := mk {
  cast : ObjectId;
  canonical : bool
}.

(** [id.toString()] *)
Definition toString (id : ObjectId) : t := mk id true.

(** [id.toString() === s].  The string an ObjectId prints is cast back to
    that ObjectId, so the two strings are equal exactly when [s] is the
    canonical string of the ObjectId it is cast to, and that is [id]. *)
Definition eqb_toString (id : ObjectId) (s : t) : bool :=
  canonical s && N.eqb id (cast s).
End IdString.

(** [Number.isSafeInteger]: the integers between [-(2^53 - 1)] and
    [2^53 - 1], on which [+] and [-] of JavaScript are exact. *)
Definition isSafeInteger (z : Z) : Prop := - (2 ^ 53 - 1) <= z <= 2 ^ 53 - 1.

(** ** Documents *)

(** [status] of an event: [enum: ['upcoming','ongoing','completed','cancelled']]. *)
Inductive Status := upcoming | ongoing | completed | cancelled.

#[global] Instance Status_eq_dec : EqDecision Status.
Proof. solve_decision. Defined.

(** An entry of [Event.participants]. *)
Module Participant.
Record t := mk {
  userId : ObjectId;
  pointsEarned : Z;
  participatedAt : Z
}.
End Participant.

(** An entry of [User.eventsParticipated]. *)
Module Participation.
Record t := mk {
  eventId : ObjectId;
  pointsEarned : Z;
  participatedAt : Z
}.
End Participation.

(** An entry of [User.achievements]. *)
Module UserAchievement.
Record t := mk {
  achievementId : ObjectId;
  earnedAt : Z;
  points : Z
}.
End UserAchievement.

Module User.
Record t := mk {
  totalPoints : Z;
  level : Z;
  achievements : list UserAchievement.t;
  eventsParticipated : list Participation.t
}.

Definition set_totalPoints (v : Z) (u : t) : t :=
  mk v (level u) (achievements u) (eventsParticipated u).
Definition set_level (v : Z) (u : t) : t :=
  mk (totalPoints u) v (achievements u) (eventsParticipated u).
Definition set_achievements (v : list UserAchievement.t) (u : t) : t :=
  mk (totalPoints u) (level u) v (eventsParticipated u).
Definition set_eventsParticipated (v : list Participation.t) (u : t) : t :=
  mk (totalPoints u) (level u) (achievements u) v.

(** [return Math.floor(this.totalPoints / 200) + 1;] *)
Definition calculateLevel (this : t) : Z := totalPoints this / 200 + 1.

(** A freshly registered user: the schema defaults. *)
Definition fresh : t := mk 0 1 [] [].
End User.

Module Event.
Record t := mk {
  points : Z;
  date : Z;
  status : Status;
  participants : list Participant.t;
  maxParticipants : option Q;        (* [None] is [null] *)
  isActive : bool
}.

Definition set_status (v : Status) (e : t) : t :=
  mk (points e) (date e) v (participants e) (maxParticipants e) (isActive e).
Definition set_participants (v : list Participant.t) (e : t) : t :=
  mk (points e) (date e) (status e) v (maxParticipants e) (isActive e).
Definition set_points (v : Z) (e : t) : t :=
  mk v (date e) (status e) (participants e) (maxParticipants e) (isActive e).
Definition set_maxParticipants (v : option Q) (e : t) : t :=
  mk (points e) (date e) (status e) (participants e) v (isActive e).

(** [eventSchema.pre('save', ...)]: an upcoming event whose date has
    passed becomes completed. *)
Definition preSave (now : Z) (this : t) : t :=
  if bool_decide (status this = upcoming) && (date this <=? now)
  then set_status completed this
  else this.

Definition getParticipantCount (this : t) : nat := length (participants this).

(** [participants.some(p => p.userId.toString() === userId.toString())] *)
Definition isParticipating (this : t) (userId : ObjectId) : bool :=
  existsb (fun participant => N.eqb (Participant.userId participant) userId)
          (participants this).

(** [this.maxParticipants && this.participants.length >= this.maxParticipants]:
    [null] and [0] are falsy; the comparison is that of the numbers, whether
    [maxParticipants] is an integer or not. *)
Definition atCapacity (this : t) : bool :=
  match maxParticipants this with
  | None => false
  | Some m =>
      negb (Qeq_bool m 0) && Qle_bool m (inject_Z (Z.of_nat (length (participants this))))
  end.

Definition canParticipate (this : t) (userId : ObjectId) : bool :=
  if negb (isActive this)
     || bool_decide (status this = completed)
     || bool_decide (status this = cancelled)
  then false
  else if isParticipating this userId then false
  else if atCapacity this then false
  else true.
End Event.

Module Requirements.
(** [requirements.type]: [enum: ['points','events','streak','custom']]. *)
Inductive Kind := points | events | streak | custom.

Record t := mk {
  type : Kind;
  value : Z           (* not read when [type] is [custom] *)
}.
End Requirements.

Module Achievement.
Record t := mk {
  _id : ObjectId;
  points : Z;
  requirements : Requirements.t;
  isActive : bool
}.

(** The method body.  It assigns to nothing: [user] is only read. *)
Definition checkEligibility (this : t) (user : User.t) : bool :=
  if negb (isActive this) then false
  else match Requirements.type (requirements this) with
       | Requirements.points =>
           Requirements.value (requirements this) <=? User.totalPoints user
       | Requirements.events =>
           Requirements.value (requirements this)
             <=? Z.of_nat (length (User.eventsParticipated user))
       | Requirements.streak => false
       | Requirements.custom => false
       end.

(** A call [achievement.checkEligibility(user)] on two objects in memory:
    the answer, and the two objects as the call leaves them. *)
Definition checkEligibility_call (this : t) (user : User.t) : bool * (t * User.t) :=
  (checkEligibility this user, (this, user)).
End Achievement.

(** ** The database and the handler monad *)

Record Db := mkDb {
  users : gmap N User.t;
  events : gmap N Event.t;
  achievements : list Achievement.t     (* in the order [find] returns them *)
}.

(** The outcome of a handler: a response, or a thrown error with the HTTP
    status the error middleware answers with ([AppError(message, statusCode)];
    a [TypeError] on a missing document is answered with 500). *)
Inductive Result (A : Type) :=
| Ok (a : A)
| Throw (statusCode : Z) (message : string).
Arguments Ok {A} a.
Arguments Throw {A} statusCode message.

Definition M (A : Type) : Type := Db -> Result A * Db.

Definition ret {A} (a : A) : M A := fun db => (Ok a, db).

Definition bind {A B} (m : M A) (k : A -> M B) : M B :=
  fun db => match m db with
            | (Ok a, db') => k a db'
            | (Throw c msg, db') => (Throw c msg, db')
            end.

Definition throw {A} (statusCode : Z) (message : string) : M A :=
  fun db => (Throw statusCode message, db).

Notation "x <- m ;; k" := (bind m (fun x => k))
  (at level 100, m at next level, right associativity).

Definition Event_findById (id : ObjectId) : M (option Event.t) :=
  fun db => (Ok (events db !! id), db).

Definition User_findById (id : ObjectId) : M (option User.t) :=
  fun db => (Ok (users db !! id), db).

(** [Achievement.find({ isActive: true })] *)
Definition Achievement_find_active : M (list Achievement.t) :=
  fun db => (Ok (List.filter Achievement.isActive (achievements db)), db).

(** [event.save()]: the pre-save hook runs, the document is written, and
    the handler goes on with the document as saved.  This is a save the
    database accepts, as is [User_save] below. *)
Definition Event_save (now : Z) (id : ObjectId) (event : Event.t) : M Event.t :=
  fun db => let event' := Event.preSave now event in
            (Ok event', mkDb (users db) (<[id := event']> (events db)) (achievements db)).

Definition User_save (id : ObjectId) (user : User.t) : M unit :=
  fun db => (Ok tt, mkDb (<[id := user]> (users db)) (events db) (achievements db)).

(** ** The event controller *)

(** [arr.findIndex(f)]; [None] is the [-1] of JavaScript. *)
Fixpoint findIndex {A} (f : A -> bool) (l : list A) : option nat :=
  match l with
  | [] => None
  | x :: l' => if f x then Some 0%nat else S <$> findIndex f l'
  end.

(** [participant.userId.toString() === req.user.id.toString()]: the test
    by which [removeParticipation] finds the participant record of the
    user who asks. *)
Definition isUser (userId : ObjectId) (participant : Participant.t) : bool :=
  N.eqb (Participant.userId participant) userId.

(** [POST /api/events/:id/participate] *)
Definition participateInEvent (now : Z) (req_user_id req_params_id : ObjectId) : M Z :=
  event <- Event_findById req_params_id ;;
  match event with
  | None => throw 404 "Event not found"
  | Some event =>
      if negb (Event.canParticipate event req_user_id)
      then throw 400 "Cannot participate in this event"
      else
        let event :=
          Event.set_participants
            (Event.participants event
               ++ [Participant.mk req_user_id (Event.points event) now]) event in
        event <- Event_save now req_params_id event ;;
        user <- User_findById req_user_id ;;
        match user with
        | None => throw 500 "TypeError"
        | Some user =>
            let user :=
              User.set_totalPoints (User.totalPoints user + Event.points event) user in
            let user := User.set_level (User.calculateLevel user) user in
            let user :=
              User.set_eventsParticipated
                (User.eventsParticipated user
                   ++ [Participation.mk req_params_id (Event.points event) now]) user in
            _ <- User_save req_user_id user ;;
            ret (Event.points event)
        end
  end.

(** [DELETE /api/events/:id/participate].  [findById] casts
    [req.params.id]; the filter on [eventsParticipated] compares with the
    string itself. *)
Definition removeParticipation (now : Z) (req_user_id : ObjectId)
    (req_params_id : IdString.t) : M Z :=
  event <- Event_findById (IdString.cast req_params_id) ;;
  match event with
  | None => throw 404 "Event not found"
  | Some event =>
      match findIndex (isUser req_user_id) (Event.participants event) with
      | None => throw 400 "User is not participating in this event"
      | Some participationIndex =>
          match Event.participants event !! participationIndex with
          | None => throw 500 "TypeError"
          | Some participation =>
              let event :=
                Event.set_participants
                  (delete participationIndex (Event.participants event)) event in
              _ <- Event_save now (IdString.cast req_params_id) event ;;
              user <- User_findById req_user_id ;;
              match user with
              | None => throw 500 "TypeError"
              | Some user =>
                  let user :=
                    User.set_totalPoints
                      (User.totalPoints user - Participant.pointsEarned participation)
                      user in
                  let user := User.set_level (User.calculateLevel user) user in
                  let user :=
                    User.set_eventsParticipated
                      (List.filter
                         (fun event =>
                            negb (IdString.eqb_toString (Participation.eventId event)
                                                        req_params_id))
                         (User.eventsParticipated user)) user in
                  _ <- User_save req_user_id user ;;
                  ret (Participant.pointsEarned participation)
              end
          end
      end
  end.

(** [user.achievements.some(ua => ua.achievementId.toString() === achievement._id.toString())] *)
Definition hasAchievement (user : User.t) (achievement : Achievement.t) : bool :=
  existsb (fun userAchievement =>
             N.eqb (UserAchievement.achievementId userAchievement)
                   (Achievement._id achievement))
          (User.achievements user).

(** A request field read in a boolean test: [undefined] and [0] are falsy. *)
Definition truthy (v : option Z) : option Z :=
  match v with
  | Some 0 => None
  | _ => v
  end.

(** The body of the [for] loop that closes [awardPointsForEvent]; the state
    is the user in memory and [newAchievements]. *)
Definition awardPointsForEvent_loop (now : Z)
    (st : User.t * list Achievement.t) (achievement : Achievement.t)
    : User.t * list Achievement.t :=
  let (user, newAchievements) := st in
  if negb (hasAchievement user achievement)
     && Achievement.checkEligibility achievement user
  then
    (User.set_achievements
       (User.achievements user
          ++ [UserAchievement.mk (Achievement._id achievement) now
                                 (Achievement.points achievement)]) user,
     newAchievements ++ [achievement])
  else st.

(** The response of [awardPointsForEvent]. *)
Record AwardResponse := mkAwardResponse {
  pointsAwarded : Z;
  newLevel : Z;
  newAchievements : list Achievement.t
}.

(** [POST /api/events/:id/award-points], with the body fields [userId], a
    string, and [points], an integer ([None] when the field is missing).
    [findById] and [push] cast [userId]; the search for an existing
    participation compares with the string itself. *)
Definition awardPointsForEvent (now : Z) (req_params_id : ObjectId)
    (userId : option IdString.t) (points : option Z) : M AwardResponse :=
  event <- Event_findById req_params_id ;;
  match event with
  | None => throw 404 "Event not found"
  | Some event =>
      match userId, truthy points with
      | Some userId, Some points =>
          user <- User_findById (IdString.cast userId) ;;
          match user with
          | None => throw 404 "User not found"
          | Some user =>
              match List.find
                      (fun participant =>
                         IdString.eqb_toString (Participant.userId participant) userId)
                      (Event.participants event) with
              | Some existingParticipation =>
                  throw 400 "User is already participating in this event"
              | None =>
                  let event :=
                    Event.set_participants
                      (Event.participants event
                         ++ [Participant.mk (IdString.cast userId) points now])
                      event in
                  _ <- Event_save now req_params_id event ;;
                  let user := User.set_totalPoints (User.totalPoints user + points) user in
                  let user := User.set_level (User.calculateLevel user) user in
                  let user :=
                    User.set_eventsParticipated
                      (User.eventsParticipated user
                         ++ [Participation.mk req_params_id points now]) user in
                  _ <- User_save (IdString.cast userId) user ;;
                  allAchievements <- Achievement_find_active ;;
                  let st := fold_left (awardPointsForEvent_loop now) allAchievements (user, []) in
                  _ <- match snd st with
                       | [] => ret tt
                       | _ :: _ => User_save (IdString.cast userId) (fst st)
                       end ;;
                  ret (mkAwardResponse points (User.level (fst st)) (snd st))
              end
          end
      | _, _ => throw 400 "User ID and points are required"
      end
  end.

(** ** The achievement controller *)

(** The body of the [for] loop of [checkUserAchievements]; the state is the
    user in memory and [newAchievements], whose entries are
    [{ achievement, points }]. *)
Definition checkUserAchievements_loop (now : Z)
    (st : User.t * list (Achievement.t * Z)) (achievement : Achievement.t)
    : User.t * list (Achievement.t * Z) :=
  let (user, newAchievements) := st in
  if negb (hasAchievement user achievement)
     && Achievement.checkEligibility achievement user
  then
    let user :=
      User.set_achievements
        (User.achievements user
           ++ [UserAchievement.mk (Achievement._id achievement) now
                                  (Achievement.points achievement)]) user in
    let user :=
      User.set_totalPoints (User.totalPoints user + Achievement.points achievement) user in
    let user := User.set_level (User.calculateLevel user) user in
    (user, newAchievements ++ [(achievement, Achievement.points achievement)])
  else st.

(** [POST /api/achievements/check].  A missing user document is only
    touched inside the loop. *)
Definition checkUserAchievements (now : Z) (req_user_id : ObjectId)
    : M (list (Achievement.t * Z)) :=
  user <- User_findById req_user_id ;;
  achievements <- Achievement_find_active ;;
  match user with
  | None =>
      match achievements with
      | [] => ret []
      | _ :: _ => throw 500 "TypeError"
      end
  | Some user =>
      let st := fold_left (checkUserAchievements_loop now) achievements (user, []) in
      _ <- match snd st with
           | [] => ret tt
           | _ :: _ => User_save req_user_id (fst st)
           end ;;
      ret (snd st)
  end.

(** * Vocabulary of the properties *)

Ltac run_handler :=
  unfold participateInEvent, removeParticipation, awardPointsForEvent,
    checkUserAchievements, bind, ret, throw, Event_findById, User_findById,
    Achievement_find_active, Event_save, User_save;
  cbn [fst snd users events achievements IdString.cast IdString.canonical].

(** ** The level ledger *)

Definition level_ok (u : User.t) : Prop :=
  User.level u = User.totalPoints u / 200 + 1.

(** What a handler leaves in the user collection: nothing new, or one
    document, written with its level recomputed. *)
Definition users_written (uid : ObjectId) (db db' : Db) : Prop :=
  users db' = users db
  \/ exists u, level_ok u /\ users db' = <[uid := u]> (users db).

(** One request served by one of the four handlers, whatever its outcome. *)
Inductive serves : Db -> Db -> Prop :=
| serves_participate now uid eid db :
    serves db (snd (participateInEvent now uid eid db))
| serves_remove now uid id db :
    serves db (snd (removeParticipation now uid id db))
| serves_award now eid userId pts db :
    serves db (snd (awardPointsForEvent now eid userId pts db))
| serves_check now uid db :
    serves db (snd (checkUserAchievements now uid db)).

(** ** Join and Leave *)

(** The documents a successful Join writes. *)
Definition joined_event (now : Z) (uid : ObjectId) (e : Event.t) : Event.t :=
  Event.preSave now
    (Event.set_participants
       (Event.participants e ++ [Participant.mk uid (Event.points e) now]) e).

Definition credited_user (now : Z) (eid : ObjectId) (pts : Z) (u : User.t) : User.t :=
  User.mk (User.totalPoints u + pts) ((User.totalPoints u + pts) / 200 + 1)
          (User.achievements u)
          (User.eventsParticipated u ++ [Participation.mk eid pts now]).

(** [user.eventsParticipated.filter(event => event.eventId.toString() !== req.params.id)] *)
Definition without_event (id : IdString.t) (l : list Participation.t) : list Participation.t :=
  List.filter (fun event => negb (IdString.eqb_toString (Participation.eventId event) id)) l.

(** The documents a successful Leave writes. *)
Definition left_event (now : Z) (i : nat) (e : Event.t) : Event.t :=
  Event.preSave now (Event.set_participants (delete i (Event.participants e)) e).

Definition debited_user (id : IdString.t) (pts : Z) (u : User.t) : User.t :=
  User.mk (User.totalPoints u - pts) ((User.totalPoints u - pts) / 200 + 1)
          (User.achievements u)
          (without_event id (User.eventsParticipated u)).

(** [user] holds a participation record of the event. *)
Definition hasRecord (user : User.t) (eid : ObjectId) : bool :=
  existsb (fun event => N.eqb (Participation.eventId event) eid)
          (User.eventsParticipated user).

(** The reasons for which Join is refused, and the database a successful
    Join by the same user on the same event has just left. *)
Inductive join_blocked (uid eid : ObjectId) (db : Db) : Prop :=
| blocked_inactive e :
    events db !! eid = Some e -> Event.isActive e = false -> join_blocked uid eid db
| blocked_completed e :
    events db !! eid = Some e -> Event.status e = completed -> join_blocked uid eid db
| blocked_cancelled e :
    events db !! eid = Some e -> Event.status e = cancelled -> join_blocked uid eid db
| blocked_participating e :
    events db !! eid = Some e -> Event.isParticipating e uid = true ->
    join_blocked uid eid db
| blocked_full e m :
    events db !! eid = Some e -> Event.maxParticipants e = Some m -> ~ (m == 0)%Q ->
    (m <= inject_Z (Z.of_nat (Event.getParticipantCount e)))%Q -> join_blocked uid eid db
| blocked_joined now db0 r :
    participateInEvent now uid eid db0 = (Ok r, db) -> join_blocked uid eid db.

(** The join preconditions as the spec lists their violations; the last
    one reads [participants.length == maxParticipants]. *)
Definition join_precondition_violated_as_stated (uid : ObjectId) (e : Event.t) : Prop :=
  Event.isActive e = false
  \/ Event.status e = completed
  \/ Event.status e = cancelled
  \/ Event.isParticipating e uid = true
  \/ (exists m, Event.maxParticipants e = Some m
                 /\ (m == inject_Z (Z.of_nat (Event.getParticipantCount e)))%Q).

(** The refusal of Join as the spec states it: an error, and the database
    as it was, whenever a precondition is violated. *)
Definition join_refused_as_stated : Prop :=
  forall now uid eid db e,
    events db !! eid = Some e ->
    join_precondition_violated_as_stated uid e ->
    exists code msg, participateInEvent now uid eid db = (Throw code msg, db).

(** The round trip as the spec states it: after a successful Join and the
    Leave that follows it, [totalPoints] and [eventsParticipated] are what
    they were before the Join.  The Leave carries the id as it is printed. *)
Definition join_leave_roundtrip_as_stated : Prop :=
  forall now now' uid eid db r db1 r' db2 u u2,
    participateInEvent now uid eid db = (Ok r, db1) ->
    removeParticipation now' uid (IdString.toString eid) db1 = (Ok r', db2) ->
    users db !! uid = Some u ->
    users db2 !! uid = Some u2 ->
    User.totalPoints u2 = User.totalPoints u
    /\ User.eventsParticipated u2 = User.eventsParticipated u.

(** ** Capacity *)

(** A request that can add a participant to the event [eid]: a Join or an
    administrative award. *)
Inductive participant_request (eid : ObjectId) : Db -> Db -> Prop :=
| request_join now uid db :
    participant_request eid db (snd (participateInEvent now uid eid db))
| request_award now userId pts db :
    participant_request eid db (snd (awardPointsForEvent now eid userId pts db)).

(** The capacity invariant as the spec states it: no such request takes
    the participant count of an event above a [maxParticipants] it did not
    exceed. *)
Definition capacity_kept_as_stated : Prop :=
  forall eid db db' e m e',
    participant_request eid db db' ->
    events db !! eid = Some e ->
    Event.maxParticipants e = Some m ->
    (inject_Z (Z.of_nat (Event.getParticipantCount e)) <= m)%Q ->
    events db' !! eid = Some e' ->
    (inject_Z (Z.of_nat (Event.getParticipantCount e')) <= m)%Q.

(** ** The achievement sweeps *)

(** The ids of the achievements a user holds, in the order of the list. *)
Definition heldIds (user : User.t) : list ObjectId :=
  map UserAchievement.achievementId (User.achievements user).

(** One sweep for the user [uid], with the ids it awards: the direct
    check, or the sweep that closes a successful administrative award. *)
Inductive sweep (uid : ObjectId) : Db -> list ObjectId -> Db -> Prop :=
| sweep_check now db new db' :
    checkUserAchievements now uid db = (Ok new, db') ->
    sweep uid db (map (fun x => Achievement._id (fst x)) new) db'
| sweep_award now eid c pts db resp db' :
    awardPointsForEvent now eid (Some (IdString.mk uid c)) pts db = (Ok resp, db') ->
    sweep uid db (map Achievement._id (newAchievements resp)) db'.

(** Any number of sweeps for [uid], with whatever happens in between that
    keeps the user's achievement list (nothing else in the controllers
    writes it); the ids are those awarded, in order. *)
Inductive sweeps (uid : ObjectId) : Db -> list ObjectId -> Db -> Prop :=
| sweeps_done db : sweeps uid db [] db
| sweeps_run db ids db1 rest db' :
    sweep uid db ids db1 -> sweeps uid db1 rest db' -> sweeps uid db (ids ++ rest) db'
| sweeps_other db db1 rest db' :
    User.achievements <$> users db1 !! uid = User.achievements <$> users db !! uid ->
    sweeps uid db1 rest db' -> sweeps uid db rest db'.

(** The user as one award of the direct check leaves it. *)
Definition awarded_user (now : Z) (a : Achievement.t) (u : User.t) : User.t :=
  User.mk (User.totalPoints u + Achievement.points a)
          ((User.totalPoints u + Achievement.points a) / 200 + 1)
          (User.achievements u
             ++ [UserAchievement.mk (Achievement._id a) now (Achievement.points a)])
          (User.eventsParticipated u).

(** The first two achievements the direct check visits are [a] and [b];
    the user holds neither; [a] qualifies; [b] has a [points] threshold
    that [totalPoints] reaches once the points of [a] are added. *)
Definition award_unlocks_next
    (db : Db) (uid : ObjectId) (u : User.t) (a b : Achievement.t) : Prop :=
  users db !! uid = Some u
  /\ (exists rest, List.filter Achievement.isActive (achievements db) = a :: b :: rest)
  /\ hasAchievement u a = false
  /\ Achievement.checkEligibility a u = true
  /\ hasAchievement u b = false
  /\ Achievement._id b <> Achievement._id a
  /\ Requirements.type (Achievement.requirements b) = Requirements.points
  /\ Requirements.value (Achievement.requirements b)
     <= User.totalPoints u + Achievement.points a.

(** * Sample documents

    Dates are written as [yyyymmdd]; user 1 is the student of each
    database and event 7 its event. *)

(** Two students of the seed script ([totalPoints: 2850, level: 12] and
    [totalPoints: 1800, level: 7]) and one of its events ([points: 150]). *)
Definition seed_student : User.t := User.mk 2850 12 [] [].
Definition seed_student_mike : User.t := User.mk 1800 7 [] [].
Definition seed_event : Event.t := Event.mk 150 20240320 upcoming [] None true.
Definition seed_db : Db := mkDb {[ 1%N := seed_student ]} {[ 7%N := seed_event ]} [].

(** Two achievements of the seed script: "Academic Excellence"
    ([points >= 2000], worth 500) and "First Steps" ([events >= 1], worth 50). *)
Definition academic_excellence : Achievement.t :=
  Achievement.mk 11%N 500 (Requirements.mk Requirements.points 2000) true.
Definition first_steps : Achievement.t :=
  Achievement.mk 15%N 50 (Requirements.mk Requirements.events 1) true.

(** The first seed student, with the two achievements in the catalogue. *)
Definition catalogue_db : Db :=
  mkDb {[ 1%N := seed_student ]} {[ 7%N := seed_event ]} [academic_excellence; first_steps].

(** The second seed student, who qualifies for neither. *)
Definition mike_db : Db :=
  mkDb {[ 1%N := seed_student_mike ]} {[ 7%N := seed_event ]}
       [academic_excellence; first_steps].

(** An active upcoming event with [maxParticipants: 0] and no participant. *)
Definition zero_capacity_event : Event.t :=
  Event.mk 50 20240320 upcoming [] (Some 0%Q) true.
Definition zero_capacity_db : Db :=
  mkDb {[ 1%N := User.fresh ]} {[ 7%N := zero_capacity_event ]} [].

(** An active event that already has more participants than its
    [maxParticipants = 0]. *)
Definition crowded_zero_capacity_event : Event.t :=
  Event.mk 50 20240320 ongoing
           [Participant.mk 2%N 50 20240301; Participant.mk 3%N 50 20240301] (Some 0%Q) true.
Definition crowded_zero_capacity_db : Db :=
  mkDb {[ 1%N := User.fresh ]} {[ 7%N := crowded_zero_capacity_event ]} [].

(** An ongoing event with one place, taken by user 2. *)
Definition full_event : Event.t :=
  Event.mk 50 20240320 ongoing [Participant.mk 2%N 50 20240301] (Some 1%Q) true.
Definition full_db : Db :=
  mkDb {[ 1%N := User.fresh; 2%N := User.mk 50 1 [] [Participation.mk 7%N 50 20240301] ]}
       {[ 7%N := full_event ]} [].

(** The same event with a capacity of one and a half. *)
Definition fractional_event : Event.t := Event.set_maxParticipants (Some (3 # 2)%Q) full_event.
Definition fractional_db : Db :=
  mkDb (users full_db) {[ 7%N := fractional_event ]} [].

(** The same event with two places, one of them free. *)
Definition roomy_event : Event.t := Event.set_maxParticipants (Some 2%Q) full_event.
Definition roomy_db : Db :=
  mkDb (users full_db) {[ 7%N := roomy_event ]} [].

(** User 1 joined event 7 when it was worth 100 points and has since
    been left with 30; the event is now worth 10. *)
Definition devalued_event : Event.t :=
  Event.mk 10 20240320 ongoing [Participant.mk 1%N 100 20240301] None true.
Definition devalued_db : Db :=
  mkDb {[ 1%N := User.mk 30 1 [] [Participation.mk 7%N 100 20240301] ]}
       {[ 7%N := devalued_event ]} [].

(** User 1 holds a record of event 7, and event 7 has no participant: the
    state a Leave leaves behind when the event was saved and the user was
    not. *)
Definition stale_record_db : Db :=
  mkDb {[ 1%N := User.mk 150 1 [] [Participation.mk 7%N 150 20240225] ]}
       {[ 7%N := seed_event ]} [].

(** User 1 has 1950 points and one participation; the catalogue lists
    "First Steps" before "Academic Excellence". *)
Definition almost_excellent : User.t :=
  User.mk 1950 10 [] [Participation.mk 7%N 150 20240225].
Definition running_total_db : Db :=
  mkDb {[ 1%N := almost_excellent ]} ∅ [first_steps; academic_excellence].

(** User 1 has 1950 points; "Academic Excellence" asks for 2000. *)
Definition award_db : Db :=
  mkDb {[ 1%N := User.mk 1950 10 [] [] ]} {[ 7%N := seed_event ]} [academic_excellence].

(** * The soft deletes

    [deleteEvent] of the event controller and [deleteAchievement] of the
    achievement controller, with the pre-save hook of the Achievement
    model.  Stored documents meet the schema validators; an [Error] a hook
    passes to [next] is answered like a [TypeError]. *)

Definition Event_set_isActive (v : bool) (e : Event.t) : Event.t :=
  Event.mk (Event.points e) (Event.date e) (Event.status e) (Event.participants e)
           (Event.maxParticipants e) v.

(** [DELETE /api/events/:id] *)
Definition deleteEvent (now : Z) (req_params_id : ObjectId) : M unit :=
  event <- Event_findById req_params_id ;;
  match event with
  | None => throw 404 "Event not found"
  | Some event =>
      let event := Event_set_isActive false event in
      _ <- Event_save now req_params_id event ;;
      ret tt
  end.

Definition Achievement_set_isActive (v : bool) (a : Achievement.t) : Achievement.t :=
  Achievement.mk (Achievement._id a) (Achievement.points a) (Achievement.requirements a) v.

(** [achievementSchema.pre('save', ...)]: the message of the error the hook
    passes on, if it refuses the document. *)
Definition Achievement_preSave (this : Achievement.t) : option string :=
  match Requirements.type (Achievement.requirements this) with
  | Requirements.points =>
      if Requirements.value (Achievement.requirements this) <? 0
      then Some "Points requirement cannot be negative"
      else None
  | Requirements.events =>
      if Requirements.value (Achievement.requirements this) <? 1
      then Some "Events requirement must be at least 1"
      else None
  | _ => None
  end.

Definition Achievement_findById (id : ObjectId) : M (option Achievement.t) :=
  fun db => (Ok (List.find (fun a => N.eqb (Achievement._id a) id) (achievements db)), db).

(** [achievement.save()]: the hook runs, and the document replaces the one
    stored under its [_id]. *)
Definition Achievement_save (achievement : Achievement.t) : M unit :=
  fun db =>
    match Achievement_preSave achievement with
    | Some message => (Throw 500 message, db)
    | None =>
        (Ok tt,
         mkDb (users db) (events db)
              (map (fun a => if N.eqb (Achievement._id a) (Achievement._id achievement)
                             then achievement else a)
                   (achievements db)))
    end.

(** [DELETE /api/achievements/:id] *)
Definition deleteAchievement (req_params_id : ObjectId) : M unit :=
  achievement <- Achievement_findById req_params_id ;;
  match achievement with
  | None => throw 404 "Achievement not found"
  | Some achievement =>
      let achievement := Achievement_set_isActive false achievement in
      _ <- Achievement_save achievement ;;
      ret tt
  end.

(** * Vocabulary of the further properties *)

Ltac run_delete :=
  unfold deleteEvent, deleteAchievement, bind, ret, throw, Event_findById,
    Achievement_findById, Event_save, Achievement_save;
  cbn [fst snd users events achievements].

(** One request served by any of the six handlers, whatever its outcome. *)
Inductive request : Db -> Db -> Prop :=
| request_serves db db' : serves db db' -> request db db'
| request_deleteEvent now eid db : request db (snd (deleteEvent now eid db))
| request_deleteAchievement aid db : request db (snd (deleteAchievement aid db)).

(** One request to any of the six handlers that carries its ids as
    [toString] prints them. *)
Inductive printed_request : Db -> Db -> Prop :=
| printed_participate now uid eid db :
    printed_request db (snd (participateInEvent now uid eid db))
| printed_remove now uid eid db :
    printed_request db (snd (removeParticipation now uid (IdString.toString eid) db))
| printed_award now eid userId pts db :
    printed_request db
      (snd (awardPointsForEvent now eid (IdString.toString <$> userId) pts db))
| printed_check now uid db :
    printed_request db (snd (checkUserAchievements now uid db))
| printed_deleteEvent now eid db :
    printed_request db (snd (deleteEvent now eid db))
| printed_deleteAchievement aid db :
    printed_request db (snd (deleteAchievement aid db)).

(** The participation lists agree: no user twice in an event, no event
    twice in a user, and a user is in an event's list exactly when the
    event is in the user's. *)
Definition participation_consistent (db : Db) : Prop :=
  (forall eid e, events db !! eid = Some e ->
                 NoDup (map Participant.userId (Event.participants e)))
  /\ (forall uid u, users db !! uid = Some u ->
                    NoDup (map Participation.eventId (User.eventsParticipated u)))
  /\ (forall uid u eid e,
         users db !! uid = Some u -> events db !! eid = Some e ->
         Event.isParticipating e uid = hasRecord u eid).

(** [status] moves only from [upcoming] to [completed]. *)
Definition status_step (s s' : Status) : Prop :=
  s' = s \/ (s = upcoming /\ s' = completed).


(** The entries a sweep appends for the achievements it awards. *)
Definition achievement_entries (now : Z) (l : list Achievement.t) : list UserAchievement.t :=
  map (fun a => UserAchievement.mk (Achievement._id a) now (Achievement.points a)) l.

(** The user as a direct check that awards [newly], in that order, leaves
    it: the points are summed up, and the level is recomputed when
    something was awarded. *)
Definition checked_user (now : Z) (newly : list Achievement.t) (u : User.t) : User.t :=
  let total := User.totalPoints u + fold_right Z.add 0 (map Achievement.points newly) in
  User.mk total
          (match newly with [] => User.level u | _ :: _ => total / 200 + 1 end)
          (User.achievements u ++ achievement_entries now newly)
          (User.eventsParticipated u).

(** The event as an administrative award of [pts] points to [uid] saves it. *)
Definition enrolled_event (now : Z) (uid : ObjectId) (pts : Z) (e : Event.t) : Event.t :=
  Event.preSave now
    (Event.set_participants (Event.participants e ++ [Participant.mk uid pts now]) e).


(** The errors the four handlers throw themselves:
    [throw new AppError(message, statusCode)]. *)
Definition AppErrors : list (Z * string) :=
  [(404, "Event not found");
   (400, "Cannot participate in this event");
   (400, "User is not participating in this event");
   (400, "User ID and points are required");
   (404, "User not found");
   (400, "User is already participating in this event")].

(** A request to one of the four handlers that ends in the thrown error
    [(code, msg)]. *)
Inductive failed_request (code : Z) (msg : string) : Db -> Db -> Prop :=
| failed_participate now uid eid db db' :
    participateInEvent now uid eid db = (Throw code msg, db') ->
    failed_request code msg db db'
| failed_remove now uid id db db' :
    removeParticipation now uid id db = (Throw code msg, db') ->
    failed_request code msg db db'
| failed_award now eid userId pts db db' :
    awardPointsForEvent now eid userId pts db = (Throw code msg, db') ->
    failed_request code msg db db'
| failed_check now uid db db' :
    checkUserAchievements now uid db = (Throw code msg, db') ->
    failed_request code msg db db'.

(** User 1 and a cancelled, inactive event that user 2 takes part in. *)
Definition cancelled_event : Event.t :=
  Event.mk 50 20240320 cancelled [Participant.mk 2%N 50 20240301] (Some 1%Q) false.
Definition cancelled_db : Db :=
  mkDb {[ 1%N := User.mk 30 1 [] [] ]} {[ 7%N := cancelled_event ]} [academic_excellence].

(** What a saved event keeps of the stored one: its points, date and
    capacity; it is not reactivated, and its status takes a [status_step]. *)
Definition event_kept (e e' : Event.t) : Prop :=
  Event.points e' = Event.points e
  /\ Event.date e' = Event.date e
  /\ Event.maxParticipants e' = Event.maxParticipants e
  /\ (Event.isActive e' = true -> Event.isActive e = true)
  /\ status_step (Event.status e) (Event.status e').

(** What a request leaves in the event collection: nothing new, or one
    document saved over the stored one. *)
Definition events_shape (eid : ObjectId) (db db' : Db) : Prop :=
  events db' = events db
  \/ exists e e', events db !! eid = Some e
                  /\ events db' = <[eid := e']> (events db)
                  /\ event_kept e e'.

(** What a request leaves in the user collection: nothing new, or one
    document saved over the stored one, with achievements appended. *)
Definition users_shape (uid : ObjectId) (db db' : Db) : Prop :=
  users db' = users db
  \/ exists u u' more, users db !! uid = Some u
                       /\ users db' = <[uid := u']> (users db)
                       /\ User.achievements u' = User.achievements u ++ more.

(** A request made for the user [uid] and the event [eid], in whatever
    spelling the ids are sent. *)
Inductive request_for (uid eid : ObjectId) : Db -> Db -> Prop :=
| for_participate now db :
    request_for uid eid db (snd (participateInEvent now uid eid db))
| for_remove now c db :
    request_for uid eid db (snd (removeParticipation now uid (IdString.mk eid c) db))
| for_award now c pts db :
    request_for uid eid db
      (snd (awardPointsForEvent now eid (Some (IdString.mk uid c)) pts db))
| for_check now db :
    request_for uid eid db (snd (checkUserAchievements now uid db))
| for_deleteEvent now db :
    request_for uid eid db (snd (deleteEvent now eid db)).

(** An event nobody can join: inactive, completed or cancelled. *)
Definition closed (e : Event.t) : Prop :=
  Event.isActive e = false \/ Event.status e = completed \/ Event.status e = cancelled.

(** The seed event with user 2 in it, on the day it is held. *)
Definition held_event : Event.t :=
  Event.mk 150 20240320 upcoming [Participant.mk 2%N 150 20240301] None true.
Definition held_db : Db :=
  mkDb {[ 1%N := seed_student; 2%N := User.mk 150 1 [] [Participation.mk 7%N 150 20240301] ]}
       {[ 7%N := held_event ]} [].

(** The achievement with this id has been retired: whatever the catalogue
    holds under the id is inactive. *)
Definition retired (aid : ObjectId) (db : Db) : Prop :=
  forall a, In a (achievements db) -> Achievement._id a = aid ->
            Achievement.isActive a = false.

(** The requirements the pre-save hook of the Achievement model refuses. *)
Definition refused_requirement (r : Requirements.t) : Prop :=
  (Requirements.type r = Requirements.points /\ Requirements.value r < 0)
  \/ (Requirements.type r = Requirements.events /\ Requirements.value r < 1).

(** An achievement every user qualifies for, with the requirement
    [{ type: 'events', value: 0 }] the pre-save hook refuses. *)
Definition welcome : Achievement.t :=
  Achievement.mk 12%N 10 (Requirements.mk Requirements.events 0) true.
Definition welcome_db : Db :=
  mkDb {[ 1%N := User.fresh ]} ∅ [academic_excellence; welcome].

(** The test of both loops: the user does not hold the achievement and
    qualifies for it. *)
Definition awardable (u : User.t) (a : Achievement.t) : bool :=
  negb (hasAchievement u a) && Achievement.checkEligibility a u.

(** The number of achievements of a list the user does not hold. *)
Definition pending (u : User.t) (l : list Achievement.t) : nat :=
  length (List.filter (fun a => negb (hasAchievement u a)) l).

(** One direct check after the other for the same user, at the given
    times. *)
Definition checks (nows : list Z) (uid : ObjectId) (db : Db) : Db :=
  fold_left (fun d now => snd (checkUserAchievements now uid d)) nows db.

(** * Properties *)

(** ** Lists and documents *)

Lemma findIndex_None {A} (f : A -> bool) (l : list A) :
  findIndex f l = None <-> existsb f l = false.
Proof.
  induction l as [|x l IH]; simpl; [done|].
  destruct (f x); simpl; [split; discriminate|].
  rewrite <- IH. destruct (findIndex f l); simpl; split; congruence.
Qed.

Lemma findIndex_Some {A} (f : A -> bool) (l : list A) (i : nat) :
  findIndex f l = Some i ->
  exists x, l !! i = Some x /\ f x = true /\ existsb f (take i l) = false.
Proof.
  revert i. induction l as [|x l IH]; intros i; simpl; [discriminate|].
  destruct (f x) eqn:Hx.
  - intros [= <-]. exists x. auto.
  - destruct (findIndex f l) as [j|]; simpl; [|discriminate].
    intros [= <-]. destruct (IH j eq_refl) as (y & Hy & Hfy & Hpre).
    exists y. simpl. rewrite Hx. auto.
Qed.

(** The record [push] has just appended is the one [findIndex] finds when
    no earlier record matches. *)
Lemma findIndex_pushed {A} (f : A -> bool) (l : list A) (x : A) :
  existsb f l = false -> f x = true -> findIndex f (l ++ [x]) = Some (length l).
Proof.
  intros Hl Hx. induction l as [|y l IH]; simpl in *.
  - by rewrite Hx.
  - apply orb_false_elim in Hl as [-> Hl]. by rewrite IH.
Qed.

Lemma delete_pushed {A} (l : list A) (x : A) : delete (length l) (l ++ [x]) = l.
Proof. induction l as [|y l IH]; simpl; [done | by rewrite IH]. Qed.

Lemma lookup_pushed {A} (l : list A) (x : A) : (l ++ [x]) !! length l = Some x.
Proof. induction l as [|y l IH]; simpl; [done | exact IH]. Qed.

Lemma preSave_participants now e :
  Event.participants (Event.preSave now e) = Event.participants e.
Proof. unfold Event.preSave. by case_match. Qed.

Lemma preSave_points now e : Event.points (Event.preSave now e) = Event.points e.
Proof. unfold Event.preSave. by case_match. Qed.

Lemma canParticipate_true e uid :
  Event.canParticipate e uid = true <->
  Event.isActive e = true /\ Event.status e <> completed /\ Event.status e <> cancelled
  /\ Event.isParticipating e uid = false /\ Event.atCapacity e = false.
Proof.
  unfold Event.canParticipate.
  destruct (Event.isActive e), (Event.isParticipating e uid), (Event.atCapacity e);
    simpl; repeat case_bool_decide; simpl; intuition congruence.
Qed.

(** ** The level ledger *)

Lemma level_ok_recomputed (u : User.t) (l : list Participation.t) :
  level_ok (User.set_eventsParticipated l (User.set_level (User.calculateLevel u) u)).
Proof. reflexivity. Qed.

(** The loop of [checkUserAchievements] either leaves its state as it
    found it, or has awarded something and left the level recomputed. *)
Lemma checkUserAchievements_loop_level now (l : list Achievement.t) (u : User.t) :
  forall st,
    st = (u, []) \/ (snd st <> [] /\ level_ok (fst st)) ->
    let st' := fold_left (checkUserAchievements_loop now) l st in
    st' = (u, []) \/ (snd st' <> [] /\ level_ok (fst st')).
Proof.
  induction l as [|a l IH]; intros st Hst; simpl; [exact Hst|].
  apply IH. unfold checkUserAchievements_loop. destruct st as [v new].
  case_match; [|exact Hst].
  right. split; [|reflexivity]. simpl. by destruct new.
Qed.

(** The loop of [awardPointsForEvent] touches only the achievement list. *)
Lemma awardPointsForEvent_loop_ledger now (l : list Achievement.t) :
  forall st,
    let st' := fold_left (awardPointsForEvent_loop now) l st in
    User.totalPoints (fst st') = User.totalPoints (fst st)
    /\ User.level (fst st') = User.level (fst st)
    /\ User.eventsParticipated (fst st') = User.eventsParticipated (fst st).
Proof.
  induction l as [|a l IH]; intros st; simpl; [done|].
  destruct (IH (awardPointsForEvent_loop now st a)) as (-> & -> & ->).
  unfold awardPointsForEvent_loop. destruct st as [v new]. by case_match.
Qed.

Lemma participateInEvent_users now uid eid db :
  users_written uid db (snd (participateInEvent now uid eid db)).
Proof.
  run_handler. repeat (case_match; cbn [fst snd users]); try (by left).
  right. eexists. split; [|reflexivity]. apply level_ok_recomputed.
Qed.

Lemma removeParticipation_users now uid id db :
  users_written uid db (snd (removeParticipation now uid id db)).
Proof.
  run_handler. repeat (case_match; cbn [fst snd users]); try (by left).
  right. eexists. split; [|reflexivity]. apply level_ok_recomputed.
Qed.

Lemma awardPointsForEvent_users now eid userId pts db :
  match userId with
  | Some s =>
      users_written (IdString.cast s) db (snd (awardPointsForEvent now eid (Some s) pts db))
  | None => users (snd (awardPointsForEvent now eid None pts db)) = users db
  end.
Proof.
  destruct userId as [[uid c]|]; run_handler.
  2: { repeat (case_match; cbn [fst snd users]); done. }
  destruct (events db !! eid) as [e|]; [|by left].
  destruct (truthy pts) as [p|]; [|by left].
  destruct (users db !! uid) as [u|]; [|by left].
  destruct (List.find _ _); [by left|].
  cbn [fst snd users events achievements]. right.
  match goal with
  | |- context [fold_left ?f ?l ?st] =>
      pose proof (awardPointsForEvent_loop_ledger now l st) as (Htp & Hlv & _);
      destruct (fold_left f l st) as [u' new] eqn:Hst
  end.
  cbn [fst snd] in *. destruct new; cbn [fst snd users].
  - eexists. split; [|reflexivity]. apply level_ok_recomputed.
  - exists u'. split; [|by rewrite insert_insert_eq].
    unfold level_ok. rewrite Hlv, Htp. reflexivity.
Qed.

Lemma checkUserAchievements_users now uid db :
  users_written uid db (snd (checkUserAchievements now uid db)).
Proof.
  run_handler. destruct (users db !! uid) as [u|].
  2: { case_match; by left. }
  match goal with
  | |- context [fold_left ?f ?l ?st] =>
      pose proof (checkUserAchievements_loop_level now l u st (or_introl eq_refl)) as H;
      destruct (fold_left f l st) as [u' new] eqn:Hst
  end.
  cbn [fst snd] in *. destruct new; cbn [fst snd users]; [by left|].
  destruct H as [[=]|[_ H]]. right. by exists u'.
Qed.

Lemma serves_users db db' : serves db db' -> exists uid, users_written uid db db'.
Proof.
  intros [now uid eid ?|now uid id ?|now eid [s|] pts ?|now uid ?].
  - exists uid. apply participateInEvent_users.
  - exists uid. apply removeParticipation_users.
  - exists (IdString.cast s). apply (awardPointsForEvent_users now eid (Some s)).
  - exists 0%N. left. apply (awardPointsForEvent_users now eid None).
  - exists uid. apply checkUserAchievements_users.
Qed.

(** C1.  After a request to Join, Leave, the administrative award or the
    direct achievement check, every user document the request has changed
    carries [level = floor(totalPoints / 200) + 1]. *)
Theorem level_recomputed_on_mutation (db db' : Db) (k : ObjectId) (u' : User.t) :
  serves db db' ->
  users db' !! k = Some u' ->
  users db !! k <> Some u' ->
  User.level u' = User.totalPoints u' / 200 + 1.
Proof.
  intros Hs Hk Hold. destruct (serves_users _ _ Hs) as (uid & [Heq|(u & Hu & Heq)]).
  - rewrite Heq in Hk. contradiction.
  - rewrite Heq in Hk. destruct (decide (uid = k)) as [->|Hne].
    + rewrite lookup_insert_eq in Hk. by injection Hk as <-.
    + rewrite lookup_insert_ne in Hk by done. contradiction.
Qed.

(** The same fact read as an invariant of the user collection. *)
Corollary level_invariant_preserved (db db' : Db) :
  serves db db' ->
  (forall k u, users db !! k = Some u -> level_ok u) ->
  forall k u, users db' !! k = Some u -> level_ok u.
Proof.
  intros Hs Hinv k u Hk.
  destruct (serves_users _ _ Hs) as (uid & [Heq|(v & Hv & Heq)]); rewrite Heq in Hk.
  - by apply (Hinv k).
  - destruct (decide (uid = k)) as [->|Hne].
    + rewrite lookup_insert_eq in Hk. by injection Hk as <-.
    + rewrite lookup_insert_ne in Hk by done. by apply (Hinv k).
Qed.

(** A direct check that awards nothing writes nothing. *)
Lemma checkUserAchievements_nothing_new now uid db db' :
  checkUserAchievements now uid db = (Ok [], db') -> db' = db.
Proof.
  run_handler. destruct (users db !! uid) as [u|].
  - match goal with
    | |- context [fold_left ?f ?l ?st] => destruct (fold_left f l st) as [u' new]
    end.
    cbn [fst snd]. destruct new; cbn [fst snd]; [|discriminate]. by intros [= <-].
  - case_match; [|discriminate]. by intros [= <-].
Qed.

(** The second seed student qualifies for nothing and keeps the level the
    seed script gave. *)
Example check_of_seed_student_awards_nothing :
  checkUserAchievements 20240301 1%N mike_db = (Ok [], mike_db).
Proof. vm_compute. reflexivity. Qed.

(** The first seed student joins the seed event: 3000 points, level 16. *)
Lemma level_recomputed_on_mutation_witness :
  exists u', users (snd (participateInEvent 20240301 1%N 7%N seed_db)) !! 1%N = Some u'
             /\ User.totalPoints u' = 3000 /\ User.level u' = 3000 / 200 + 1.
Proof.
  eexists. split; [vm_compute; reflexivity|]. split; [reflexivity|].
  apply (level_recomputed_on_mutation seed_db
           (snd (participateInEvent 20240301 1%N 7%N seed_db)) 1%N).
  - apply serves_participate.
  - vm_compute. reflexivity.
  - vm_compute. discriminate.
Defined.

(** ** The eligibility evaluator *)

(** C6.  An inactive achievement never qualifies; an active one qualifies
    on a [points] requirement iff [totalPoints >= value], on an [events]
    requirement iff the number of participation records [>= value], and
    never on [streak] or [custom]; the call leaves both objects as they
    were. *)
Theorem checkEligibility_policy (achievement : Achievement.t) (user : User.t) :
  let requirement := Achievement.requirements achievement in
  let answer := Achievement.checkEligibility achievement user in
  (Achievement.isActive achievement = false -> answer = false)
  /\ (Achievement.isActive achievement = true ->
      Requirements.type requirement = Requirements.points ->
      (answer = true <-> User.totalPoints user >= Requirements.value requirement))
  /\ (Achievement.isActive achievement = true ->
      Requirements.type requirement = Requirements.events ->
      (answer = true <->
       Z.of_nat (length (User.eventsParticipated user)) >= Requirements.value requirement))
  /\ (Requirements.type requirement = Requirements.streak -> answer = false)
  /\ (Requirements.type requirement = Requirements.custom -> answer = false)
  /\ Achievement.checkEligibility_call achievement user = (answer, (achievement, user)).
Proof.
  cbv zeta. unfold Achievement.checkEligibility_call, Achievement.checkEligibility.
  destruct (Achievement.isActive achievement); simpl.
  - split; [discriminate|].
    split; [intros _ ->; rewrite Z.leb_le; lia|].
    split; [intros _ ->; rewrite Z.leb_le; lia|].
    split; [by intros ->|]. split; [by intros ->|reflexivity].
  - split; [done|]. split; [discriminate|]. split; [discriminate|]. done.
Qed.

(** ** Join *)

Lemma participateInEvent_Ok now uid eid db r db' :
  participateInEvent now uid eid db = (Ok r, db') ->
  exists e u,
    events db !! eid = Some e /\ users db !! uid = Some u
    /\ Event.canParticipate e uid = true
    /\ r = Event.points e
    /\ db' = mkDb (<[uid := credited_user now eid (Event.points e) u]> (users db))
                  (<[eid := joined_event now uid e]> (events db))
                  (achievements db).
Proof.
  run_handler. destruct (events db !! eid) as [e|]; [|discriminate].
  destruct (Event.canParticipate e uid) eqn:Hcan; simpl; [|discriminate].
  destruct (users db !! uid) as [u|]; [|discriminate].
  rewrite preSave_points. intros [= <- <-]. by exists e, u.
Qed.

Lemma participateInEvent_blocked now uid eid db e :
  events db !! eid = Some e ->
  Event.canParticipate e uid = false ->
  participateInEvent now uid eid db = (Throw 400 "Cannot participate in this event", db).
Proof. intros He Hcan. run_handler. by rewrite He, Hcan. Qed.

Lemma isParticipating_pushed (e : Event.t) (l : list Participant.t) uid pts now :
  Event.isParticipating
    (Event.set_participants (l ++ [Participant.mk uid pts now]) e) uid = true.
Proof.
  unfold Event.isParticipating. simpl. rewrite existsb_app. simpl.
  rewrite N.eqb_refl. by rewrite orb_true_r.
Qed.

Lemma isParticipating_preSave now e uid :
  Event.isParticipating (Event.preSave now e) uid = Event.isParticipating e uid.
Proof. unfold Event.isParticipating. by rewrite preSave_participants. Qed.

Lemma canParticipate_participating e uid :
  Event.isParticipating e uid = true -> Event.canParticipate e uid = false.
Proof.
  intros H. destruct (Event.canParticipate e uid) eqn:Hcan; [|done].
  apply canParticipate_true in Hcan. destruct Hcan as (_ & _ & _ & Hp & _). congruence.
Qed.

(** C5, counterexample: on an event with [maxParticipants = 0] and no
    participant the count is at [maxParticipants], and Join succeeds. *)
Lemma join_refused_counterexample : ~ join_refused_as_stated.
Proof.
  intros H.
  destruct (H 20240301 1%N 7%N zero_capacity_db zero_capacity_event)
    as (code & msg & Hrun); [reflexivity | |].
  - do 4 right. exists 0%Q. split; reflexivity.
  - vm_compute in Hrun. discriminate.
Qed.

(** C5, amended.  Join throws the 400 error and leaves the database as it
    was when the event is inactive, completed or cancelled, when the user
    is already in the participant list, when the participant count has
    reached a non-zero [maxParticipants], and when the same user has just
    joined the same event (so no points are added a second time). *)
Theorem join_refused_leaves_database (now : Z) (uid eid : ObjectId) (db : Db) :
  join_blocked uid eid db ->
  participateInEvent now uid eid db = (Throw 400 "Cannot participate in this event", db).
Proof.
  intros [e He H|e He H|e He H|e He H|e m He Hm Hm0 Hfull|now0 db0 r Hjoin].
  - apply (participateInEvent_blocked _ _ _ _ e He).
    unfold Event.canParticipate. by rewrite H.
  - apply (participateInEvent_blocked _ _ _ _ e He).
    unfold Event.canParticipate. rewrite H. simpl. by rewrite orb_true_r.
  - apply (participateInEvent_blocked _ _ _ _ e He).
    unfold Event.canParticipate. rewrite H. simpl. by rewrite orb_true_r.
  - apply (participateInEvent_blocked _ _ _ _ e He).
    by apply canParticipate_participating.
  - apply (participateInEvent_blocked _ _ _ _ e He).
    destruct (Event.canParticipate e uid) eqn:Hcan; [|done].
    apply canParticipate_true in Hcan. destruct Hcan as (_ & _ & _ & _ & Hcap).
    unfold Event.atCapacity, Event.getParticipantCount in *. rewrite Hm in Hcap.
    apply andb_false_iff in Hcap as [Hz|Hle].
    + apply negb_false_iff, Qeq_bool_iff in Hz. contradiction.
    + apply Qle_bool_iff in Hfull. congruence.
  - apply participateInEvent_Ok in Hjoin as (e & u & He & Hu & Hcan & -> & ->).
    apply (participateInEvent_blocked _ _ _ _ (joined_event now0 uid e)).
    + cbn [events]. apply lookup_insert_eq.
    + apply canParticipate_participating. unfold joined_event.
      rewrite isParticipating_preSave. apply isParticipating_pushed.
Qed.

(** The seed student joins the seed event, and asks again the day after. *)
Lemma join_refused_leaves_database_witness :
  let db1 := snd (participateInEvent 20240301 1%N 7%N seed_db) in
  participateInEvent 20240302 1%N 7%N db1
  = (Throw 400 "Cannot participate in this event", db1).
Proof.
  apply join_refused_leaves_database.
  apply (blocked_joined _ _ _ 20240301 seed_db 150). vm_compute. reflexivity.
Defined.

(** C10.  With [maxParticipants = 0] the capacity test is skipped as it
    is with [null]: whatever the participant count, [canParticipate]
    holds when the other preconditions do, and Join succeeds and adds the
    participant. *)
Theorem zero_maxParticipants_unlimited
    (now : Z) (uid eid : ObjectId) (db : Db) (e : Event.t) (u : User.t) (m : Q) :
  events db !! eid = Some e ->
  users db !! uid = Some u ->
  Event.maxParticipants e = Some m ->
  (m == 0)%Q ->
  Event.isActive e = true ->
  Event.status e <> completed ->
  Event.status e <> cancelled ->
  Event.isParticipating e uid = false ->
  Event.canParticipate e uid = Event.canParticipate (Event.set_maxParticipants None e) uid
  /\ Event.canParticipate e uid = true
  /\ exists db' e',
       participateInEvent now uid eid db = (Ok (Event.points e), db')
       /\ events db' !! eid = Some e'
       /\ Event.getParticipantCount e' = S (Event.getParticipantCount e).
Proof.
  intros He Hu Hm Hm0 Hact Hc1 Hc2 Hp.
  assert (Hcap : Event.atCapacity e = false).
  { unfold Event.atCapacity. rewrite Hm. apply Qeq_bool_iff in Hm0. by rewrite Hm0. }
  assert (Hcan : Event.canParticipate e uid = true) by (by apply canParticipate_true).
  split; [|split; [exact Hcan|]].
  - rewrite Hcan. symmetry. by apply canParticipate_true.
  - run_handler. rewrite He, Hcan. cbn [negb]. rewrite Hu, preSave_points.
    eexists _, _. split; [reflexivity|]. cbn [events]. split; [apply lookup_insert_eq|].
    unfold Event.getParticipantCount. rewrite preSave_participants. simpl.
    rewrite length_app. simpl. lia.
Qed.

(** A third participant joins the event whose [maxParticipants] is 0. *)
Lemma zero_maxParticipants_unlimited_witness :
  exists db' e',
    participateInEvent 20240302 1%N 7%N crowded_zero_capacity_db = (Ok 50, db')
    /\ events db' !! 7%N = Some e'
    /\ Event.getParticipantCount e' = 3%nat.
Proof.
  apply (zero_maxParticipants_unlimited 20240302 1%N 7%N crowded_zero_capacity_db
           crowded_zero_capacity_event User.fresh 0%Q);
    first [reflexivity | discriminate].
Defined.

(** ** Capacity *)

(** C3, counterexample: the administrative award adds user 1 to the full
    event, which then has two participants for [maxParticipants = 1]. *)
Lemma capacity_kept_counterexample : ~ capacity_kept_as_stated.
Proof.
  intros H.
  pose proof (H 7%N full_db
                (snd (awardPointsForEvent 20240302 7%N (Some (IdString.toString 1%N))
                                          (Some 40) full_db))
                full_event 1%Q
                (Event.set_participants
                   [Participant.mk 2%N 50 20240301; Participant.mk 1%N 40 20240302]
                   full_event)
                (request_award 7%N 20240302 (Some (IdString.toString 1%N)) (Some 40)
                               full_db)) as Hle.
  vm_compute in Hle. apply Hle; try reflexivity. discriminate.
Qed.

(** C3, amended.  For an event whose [maxParticipants] is set to an
    integer other than 0, a Join request, whatever its outcome, never
    takes the participant count above [maxParticipants]: the Join is
    admitted only below [maxParticipants], and a count below an integer
    is at most that integer after the push. *)
Theorem join_respects_capacity
    (now : Z) (uid eid : ObjectId) (db : Db) (e e' : Event.t) (m : Q) (z : Z) :
  events db !! eid = Some e ->
  Event.maxParticipants e = Some m ->
  (m == inject_Z z)%Q ->
  z <> 0 ->
  Z.of_nat (Event.getParticipantCount e) <= z ->
  events (snd (participateInEvent now uid eid db)) !! eid = Some e' ->
  Z.of_nat (Event.getParticipantCount e') <= z.
Proof.
  intros He Hm Hint Hz0 Hle. run_handler. rewrite He.
  destruct (Event.canParticipate e uid) eqn:Hcan; cbn [negb fst snd events].
  2: { rewrite He. by intros [= <-]. }
  apply canParticipate_true in Hcan as (_ & _ & _ & _ & Hcap).
  unfold Event.atCapacity in Hcap. rewrite Hm in Hcap.
  apply andb_false_iff in Hcap as [Hz|Hlt].
  { apply negb_false_iff, Qeq_bool_iff in Hz. rewrite Hint in Hz.
    apply (inject_Z_injective z 0) in Hz. contradiction. }
  assert (Hbelow : Z.of_nat (length (Event.participants e)) < z).
  { apply Z.lt_nge. intros Hge. rewrite Zle_Qle, <- Hint in Hge.
    apply Qle_bool_iff in Hge. congruence. }
  assert (Hcount : forall db1, events db1 !! eid = Some (joined_event now uid e) ->
                               events db1 !! eid = Some e' ->
                               Z.of_nat (Event.getParticipantCount e') <= z).
  { intros db1 H1 H2. rewrite H1 in H2. injection H2 as <-.
    unfold Event.getParticipantCount, joined_event.
    rewrite preSave_participants. simpl. rewrite length_app. simpl. lia. }
  destruct (users db !! uid); cbn [fst snd events]; intros H;
    apply (Hcount (mkDb (users db) (<[eid := joined_event now uid e]> (events db)) []));
    cbn [events]; try exact H; apply lookup_insert_eq.
Qed.

(** The free place of the two-place event is taken, and the count stops
    at two. *)
Lemma join_respects_capacity_witness :
  exists e', events (snd (participateInEvent 20240302 1%N 7%N roomy_db)) !! 7%N = Some e'
             /\ Event.getParticipantCount e' = 2%nat
             /\ Z.of_nat (Event.getParticipantCount e') <= 2.
Proof.
  eexists. split; [vm_compute; reflexivity|]. split; [reflexivity|].
  apply (join_respects_capacity 20240302 1%N 7%N roomy_db roomy_event _ 2%Q 2);
    [reflexivity | reflexivity | reflexivity | discriminate | vm_compute; discriminate
    | vm_compute; reflexivity].
Defined.

(** A capacity that is not an integer does not hold the count: with
    [maxParticipants = 1.5] and one participant, [1 >= 1.5] is false, the
    Join is admitted, and the event has two participants. *)
Example join_beyond_fractional_capacity :
  exists db' e',
    participateInEvent 20240302 1%N 7%N fractional_db = (Ok 50, db')
    /\ events db' !! 7%N = Some e'
    /\ Event.maxParticipants e' = Some (3 # 2)%Q
    /\ Event.getParticipantCount e' = 2%nat
    /\ ~ (inject_Z (Z.of_nat (Event.getParticipantCount e')) <= 3 # 2)%Q.
Proof.
  eexists _, _. split; [vm_compute; reflexivity|]. split; [vm_compute; reflexivity|].
  split; [reflexivity|]. split; [reflexivity|]. vm_compute. intros H. by apply H.
Qed.

(** ** Leave *)

Lemma removeParticipation_found now uid eid c db e u i p :
  events db !! eid = Some e ->
  users db !! uid = Some u ->
  findIndex (isUser uid) (Event.participants e) = Some i ->
  Event.participants e !! i = Some p ->
  removeParticipation now uid (IdString.mk eid c) db
  = (Ok (Participant.pointsEarned p),
     mkDb (<[uid := debited_user (IdString.mk eid c) (Participant.pointsEarned p) u]>
             (users db))
          (<[eid := left_event now i e]> (events db))
          (achievements db)).
Proof.
  intros He Hu Hi Hp. run_handler. rewrite He, Hi, Hp. cbn [users]. by rewrite Hu.
Qed.

Lemma removeParticipation_Ok now uid eid c db r db' :
  removeParticipation now uid (IdString.mk eid c) db = (Ok r, db') ->
  exists e u i p,
    events db !! eid = Some e /\ users db !! uid = Some u
    /\ findIndex (isUser uid) (Event.participants e) = Some i
    /\ Event.participants e !! i = Some p.
Proof.
  run_handler. destruct (events db !! eid) as [e|] eqn:He; [|discriminate].
  destruct (findIndex _ _) as [i|] eqn:Hi; [|discriminate].
  destruct (Event.participants e !! i) as [p|] eqn:Hp; [|discriminate].
  cbn [users]. destruct (users db !! uid) as [u|] eqn:Hu; [|discriminate].
  intros _. by exists e, u, i, p.
Qed.

(** C7.  A successful Leave subtracts from [totalPoints] the
    [pointsEarned] of the participant record it removes; the event's
    current [points] play no part; nothing keeps the result from going
    below zero.  This is so in whatever spelling the event id is sent. *)
Theorem leave_subtracts_recorded_points
    (now : Z) (uid eid : ObjectId) (c : bool) (db : Db) (r : Z) (db' : Db) :
  removeParticipation now uid (IdString.mk eid c) db = (Ok r, db') ->
  exists e u i p u',
    events db !! eid = Some e /\ users db !! uid = Some u
    /\ findIndex (isUser uid) (Event.participants e) = Some i
    /\ Event.participants e !! i = Some p
    /\ r = Participant.pointsEarned p
    /\ users db' !! uid = Some u'
    /\ User.totalPoints u' = User.totalPoints u - Participant.pointsEarned p
    /\ (Participant.pointsEarned p > User.totalPoints u -> User.totalPoints u' < 0)
    /\ forall q,
         users (snd (removeParticipation now uid (IdString.mk eid c)
                       (mkDb (users db) (<[eid := Event.set_points q e]> (events db))
                             (achievements db))))
         = users db'.
Proof.
  intros Hrun.
  destruct (removeParticipation_Ok _ _ _ _ _ _ _ Hrun) as (e & u & i & p & He & Hu & Hi & Hp).
  rewrite (removeParticipation_found _ _ _ _ _ e u i p He Hu Hi Hp) in Hrun.
  injection Hrun as <- <-.
  exists e, u, i, p, (debited_user (IdString.mk eid c) (Participant.pointsEarned p) u).
  repeat (split; [done|]). cbn [users].
  split; [apply lookup_insert_eq|]. split; [reflexivity|].
  split; [simpl; lia|]. intros q.
  rewrite (removeParticipation_found _ _ _ _ _ (Event.set_points q e) u i p);
    [reflexivity | apply lookup_insert_eq | exact Hu | exact Hi | exact Hp].
Qed.

(** The user with 30 points leaves the event joined for 100: 30 - 100. *)
Lemma leave_subtracts_recorded_points_witness :
  exists u',
    users (snd (removeParticipation 20240302 1%N (IdString.toString 7%N) devalued_db)) !! 1%N
    = Some u'
    /\ User.totalPoints u' = 30 - 100.
Proof.
  destruct (leave_subtracts_recorded_points 20240302 1%N 7%N true devalued_db 100
              (snd (removeParticipation 20240302 1%N (IdString.toString 7%N) devalued_db)))
    as (e & u & i & p & u' & He & Hu & Hi & Hp & Hr & Hu' & Htp & _).
  { vm_compute. reflexivity. }
  exists u'. split; [exact Hu'|].
  vm_compute in He, Hu. injection He as <-. injection Hu as <-.
  vm_compute in Hi. injection Hi as <-. vm_compute in Hp. injection Hp as <-.
  exact Htp.
Defined.

(** ** Join, then Leave *)

Lemma without_event_absent eid c (l : list Participation.t) :
  existsb (fun event => N.eqb (Participation.eventId event) eid) l = false ->
  without_event (IdString.mk eid c) l = l.
Proof.
  unfold without_event, IdString.eqb_toString. cbn [IdString.cast IdString.canonical].
  induction l as [|x l IH]; simpl; [done|].
  intros [Hx Hl]%orb_false_elim. rewrite Hx, andb_false_r. simpl. by rewrite IH.
Qed.

Lemma without_event_pushed eid (l : list Participation.t) pts now :
  without_event (IdString.toString eid) (l ++ [Participation.mk eid pts now])
  = without_event (IdString.toString eid) l.
Proof.
  unfold without_event, IdString.eqb_toString. rewrite List.filter_app. simpl.
  rewrite N.eqb_refl. simpl. apply app_nil_r.
Qed.

(** An id in another spelling than the printed one matches no record. *)
Lemma without_event_other_spelling eid (l : list Participation.t) :
  without_event (IdString.mk eid false) l = l.
Proof.
  unfold without_event, IdString.eqb_toString. simpl.
  induction l as [|x l IH]; simpl; [done|]. by rewrite IH.
Qed.

(** Join followed by Leave, on any database on which the Join succeeds. *)
Lemma join_then_leave_run now now' uid eid c db r db1 :
  participateInEvent now uid eid db = (Ok r, db1) ->
  exists e u,
    events db !! eid = Some e /\ users db !! uid = Some u
    /\ removeParticipation now' uid (IdString.mk eid c) db1
       = (Ok (Event.points e),
          mkDb (<[uid := debited_user (IdString.mk eid c) (Event.points e)
                           (credited_user now eid (Event.points e) u)]> (users db))
               (<[eid := left_event now' (length (Event.participants e))
                           (joined_event now uid e)]> (events db))
               (achievements db)).
Proof.
  intros (e & u & He & Hu & Hcan & -> & ->)%participateInEvent_Ok.
  exists e, u. split; [done|]. split; [done|].
  apply canParticipate_true in Hcan as (_ & _ & _ & Hp & _).
  rewrite (removeParticipation_found now' uid eid c _ (joined_event now uid e)
             (credited_user now eid (Event.points e) u)
             (length (Event.participants e))
             (Participant.mk uid (Event.points e) now)).
  - cbn [users events achievements Participant.pointsEarned].
    by rewrite !insert_insert_eq.
  - cbn [events]. apply lookup_insert_eq.
  - cbn [users]. apply lookup_insert_eq.
  - unfold joined_event. rewrite preSave_participants. simpl.
    by apply findIndex_pushed; [exact Hp | apply N.eqb_refl].
  - unfold joined_event. rewrite preSave_participants. simpl. apply lookup_pushed.
Qed.

(** The points a Leave takes back are those the Join recorded, whatever
    the event is worth by then. *)
Lemma leave_uses_points_recorded_at_join now now' uid eid c db r db1 u q :
  participateInEvent now uid eid db = (Ok r, db1) ->
  users db !! uid = Some u ->
  exists e1 db2 u2,
    events db1 !! eid = Some e1
    /\ removeParticipation now' uid (IdString.mk eid c)
         (mkDb (users db1) (<[eid := Event.set_points q e1]> (events db1)) (achievements db1))
       = (Ok r, db2)
    /\ users db2 !! uid = Some u2
    /\ User.totalPoints u2 = User.totalPoints u.
Proof.
  intros (e & u0 & He & Hu0 & Hcan & -> & ->)%participateInEvent_Ok Hu.
  rewrite Hu in Hu0. injection Hu0 as <-.
  apply canParticipate_true in Hcan as (_ & _ & _ & Hp & _).
  exists (joined_event now uid e). cbn [users events achievements].
  rewrite (removeParticipation_found now' uid eid c _
             (Event.set_points q (joined_event now uid e))
             (credited_user now eid (Event.points e) u)
             (length (Event.participants e))
             (Participant.mk uid (Event.points e) now)).
  - eexists _, _. split; [apply lookup_insert_eq|]. split; [reflexivity|].
    cbn [users]. split; [apply lookup_insert_eq|]. simpl. lia.
  - cbn [events]. apply lookup_insert_eq.
  - cbn [users]. apply lookup_insert_eq.
  - unfold joined_event. simpl. rewrite preSave_participants. simpl.
    by apply findIndex_pushed; [exact Hp | apply N.eqb_refl].
  - unfold joined_event. simpl. rewrite preSave_participants. simpl. apply lookup_pushed.
Qed.

(** C4, counterexample: the Join succeeds, and the Leave removes the old
    record of the event with the new one. *)
Lemma join_leave_roundtrip_counterexample : ~ join_leave_roundtrip_as_stated.
Proof.
  intros H.
  destruct (H 20240301 20240302 1%N 7%N stale_record_db 150
              (snd (participateInEvent 20240301 1%N 7%N stale_record_db))
              150
              (snd (removeParticipation 20240302 1%N (IdString.toString 7%N)
                      (snd (participateInEvent 20240301 1%N 7%N stale_record_db))))
              (User.mk 150 1 [] [Participation.mk 7%N 150 20240225])
              (User.mk 150 1 [] []))
    as [_ Hlist]; [vm_compute; reflexivity..|].
  discriminate Hlist.
Qed.

(** C4, amended.  After a successful Join the Leave that follows it
    succeeds and, the point values being safe integers, restores
    [totalPoints].  When the Leave carries the event id as it is printed,
    it leaves [eventsParticipated] as it was before the Join with every
    record of the event removed, which is the list before the Join when
    that list held no record of the event.  When the Leave carries the id
    in another spelling, the record the Join appended stays in the list. *)
Theorem join_then_leave_restores
    (now now' : Z) (uid eid : ObjectId) (c : bool) (db : Db) (r : Z) (db1 : Db)
    (u : User.t) :
  participateInEvent now uid eid db = (Ok r, db1) ->
  users db !! uid = Some u ->
  isSafeInteger (User.totalPoints u) ->
  isSafeInteger r ->
  isSafeInteger (User.totalPoints u + r) ->
  exists r' db2 u2,
    removeParticipation now' uid (IdString.mk eid c) db1 = (Ok r', db2)
    /\ users db2 !! uid = Some u2
    /\ User.totalPoints u2 = User.totalPoints u
    /\ (c = true ->
        User.eventsParticipated u2
        = without_event (IdString.toString eid) (User.eventsParticipated u)
        /\ (hasRecord u eid = false ->
            User.eventsParticipated u2 = User.eventsParticipated u))
    /\ (c = false ->
        User.eventsParticipated u2
        = User.eventsParticipated u ++ [Participation.mk eid r now]).
Proof.
  intros Hjoin Hu _ _ _.
  destruct (join_then_leave_run now now' _ _ c _ _ _ Hjoin) as (e & u0 & He & Hu0 & Hrun).
  rewrite Hu in Hu0. injection Hu0 as <-.
  apply participateInEvent_Ok in Hjoin as (e0 & _ & He0 & _ & _ & -> & _).
  rewrite He in He0. injection He0 as <-.
  eexists _, _, _. split; [exact Hrun|]. cbn [users].
  split; [apply lookup_insert_eq|]. simpl.
  split; [lia|]. split.
  - intros ->. fold (IdString.toString eid). rewrite without_event_pushed.
    split; [done|]. intros Hrec. by apply without_event_absent.
  - intros ->. apply without_event_other_spelling.
Qed.

(** The seed student joins the seed event and leaves it. *)
Lemma join_then_leave_restores_witness :
  exists r' db2 u2,
    removeParticipation 20240302 1%N (IdString.toString 7%N)
      (snd (participateInEvent 20240301 1%N 7%N seed_db)) = (Ok r', db2)
    /\ users db2 !! 1%N = Some u2
    /\ User.totalPoints u2 = 2850
    /\ User.eventsParticipated u2 = [].
Proof.
  destruct (join_then_leave_restores 20240301 20240302 1%N 7%N true seed_db 150
              (snd (participateInEvent 20240301 1%N 7%N seed_db)) seed_student)
    as (r' & db2 & u2 & Hrun & Hu2 & Htp & Hlist & _);
    [vm_compute; reflexivity | reflexivity | unfold isSafeInteger; simpl; lia..|].
  exists r', db2, u2. repeat split; [exact Hrun | exact Hu2 | exact Htp |].
  by apply Hlist.
Defined.

(** The same Leave with the id of the event in upper case: the points
    are taken back and the record of the event stays with the student. *)
Example leave_in_another_spelling_keeps_record :
  exists db2,
    removeParticipation 20240302 1%N (IdString.mk 7%N false)
      (snd (participateInEvent 20240301 1%N 7%N seed_db)) = (Ok 150, db2)
    /\ users db2 !! 1%N
       = Some (User.mk 2850 15 [] [Participation.mk 7%N 150 20240301])
    /\ events db2 !! 7%N = Some seed_event.
Proof. eexists. split; [vm_compute; reflexivity|]. split; reflexivity. Qed.

(** ** The achievement sweeps *)

Lemma hasAchievement_false user achievement :
  hasAchievement user achievement = false <-> Achievement._id achievement ∉ heldIds user.
Proof.
  unfold hasAchievement, heldIds.
  induction (User.achievements user) as [|x l IH]; simpl.
  - split; [intros _; apply not_elem_of_nil | done].
  - rewrite not_elem_of_cons, orb_false_iff, IH, N.eqb_neq.
    split; intros [H1 H2]; split; congruence.
Qed.

(** Both loops have one shape: a step leaves the state alone, or awards an
    achievement whose id the user does not hold and records it in both
    lists. *)
Section AwardLoop.
Context {S E : Type}.
Variable held : S -> list ObjectId.
Variable awarded : S -> list E.
Variable entry_id : E -> ObjectId.
Variable step : S -> Achievement.t -> S.
Hypothesis step_awards_fresh :
  forall s a,
    step s a = s
    \/ exists e, entry_id e = Achievement._id a
                 /\ (Achievement._id a ∉ held s)
                 /\ held (step s a) = held s ++ [entry_id e]
                 /\ awarded (step s a) = awarded s ++ [e].

Lemma loop_awards_fresh (l : list Achievement.t) :
  forall s,
    exists newly,
      awarded (fold_left step l s) = awarded s ++ newly
      /\ held (fold_left step l s) = held s ++ map entry_id newly
      /\ NoDup (map entry_id newly)
      /\ (forall x, x ∈ map entry_id newly -> x ∉ held s).
Proof.
  induction l as [|a l IH]; intros s; simpl.
  - exists []. simpl. rewrite !app_nil_r. repeat split; [constructor|].
    intros x Hx. by apply elem_of_nil in Hx.
  - destruct (IH (step s a)) as (newly & Haw & Hheld & Hnd & Hfresh).
    destruct (step_awards_fresh s a) as [Hsame|(e & Hid & Hnew & Hh & Ha)].
    + rewrite Hsame in *. by exists newly.
    + exists (e :: newly). rewrite Haw, Hheld, Hh, Ha, <- !app_assoc. simpl.
      split; [done|]. split; [done|]. split.
      * apply NoDup_cons. split; [|done]. intros Hin.
        apply (Hfresh _ Hin). rewrite Hh. apply elem_of_app. right. by left.
      * intros x [->|Hin]%elem_of_cons; [by rewrite Hid|].
        intros Hx. apply (Hfresh _ Hin). rewrite Hh. apply elem_of_app. by left.
Qed.
End AwardLoop.

Lemma checkUserAchievements_loop_fresh now (l : list Achievement.t) (st : User.t * list (Achievement.t * Z)) :
  let st' := fold_left (checkUserAchievements_loop now) l st in
  exists newly,
    snd st' = snd st ++ newly
    /\ heldIds (fst st') = heldIds (fst st) ++ map (fun x => Achievement._id (fst x)) newly
    /\ NoDup (map (fun x => Achievement._id (fst x)) newly)
    /\ (forall x, x ∈ map (fun x => Achievement._id (fst x)) newly -> x ∉ heldIds (fst st)).
Proof.
  apply (loop_awards_fresh (fun s => heldIds (fst s)) snd
           (fun x => Achievement._id (fst x)) (checkUserAchievements_loop now)).
  intros [u new] a. unfold checkUserAchievements_loop.
  destruct (hasAchievement u a) eqn:Hhas; simpl; [by left|].
  destruct (Achievement.checkEligibility a u); [|by left].
  right. exists (a, Achievement.points a). simpl.
  split; [done|]. split; [by apply hasAchievement_false|].
  split; [|done]. unfold heldIds. simpl. by rewrite map_app.
Qed.

Lemma awardPointsForEvent_loop_fresh now (l : list Achievement.t) (st : User.t * list Achievement.t) :
  let st' := fold_left (awardPointsForEvent_loop now) l st in
  exists newly,
    snd st' = snd st ++ newly
    /\ heldIds (fst st') = heldIds (fst st) ++ map Achievement._id newly
    /\ NoDup (map Achievement._id newly)
    /\ (forall x, x ∈ map Achievement._id newly -> x ∉ heldIds (fst st)).
Proof.
  apply (loop_awards_fresh (fun s => heldIds (fst s)) snd
           Achievement._id (awardPointsForEvent_loop now)).
  intros [u new] a. unfold awardPointsForEvent_loop.
  destruct (hasAchievement u a) eqn:Hhas; simpl; [by left|].
  destruct (Achievement.checkEligibility a u); [|by left].
  right. exists a. simpl.
  split; [done|]. split; [by apply hasAchievement_false|].
  split; [|done]. unfold heldIds. simpl. by rewrite map_app.
Qed.

Lemma sweep_fresh uid db ids db' u :
  sweep uid db ids db' ->
  users db !! uid = Some u ->
  exists u',
    users db' !! uid = Some u'
    /\ heldIds u' = heldIds u ++ ids
    /\ NoDup ids
    /\ (forall x, x ∈ ids -> x ∉ heldIds u).
Proof.
  intros [now db0 new db0' Hrun|now eid c pts db0 resp db0' Hrun] Hu; revert Hrun; run_handler.
  - rewrite Hu.
    match goal with
    | |- context [fold_left ?f ?l ?st] =>
        destruct (checkUserAchievements_loop_fresh now l st) as (newly & Hnew & Hheld & Hnd & Hfr);
        destruct (fold_left f l st) as [u' new'] eqn:Hst
    end.
    simpl in Hnew, Hheld, Hfr. subst new'. cbn [fst snd].
    destruct newly as [|n newly]; cbn [fst snd]; intros [= <- <-].
    + exists u. simpl. rewrite app_nil_r. repeat split; [done|constructor|].
      intros x Hx. by apply elem_of_nil in Hx.
    + exists u'. cbn [users]. split; [apply lookup_insert_eq|]. done.
  - destruct (events db0 !! eid) as [e|]; [|discriminate].
    destruct (truthy pts) as [p|]; [|discriminate].
    rewrite Hu. destruct (List.find _ _); [discriminate|].
    cbn [fst snd users events achievements].
    match goal with
    | |- context [fold_left ?f ?l ?st] =>
        destruct (awardPointsForEvent_loop_fresh now l st) as (newly & Hnew & Hheld & Hnd & Hfr);
        destruct (fold_left f l st) as [u' new'] eqn:Hst
    end.
    simpl in Hnew, Hheld, Hfr. subst new'. cbn [fst snd].
    destruct newly as [|n newly]; cbn [fst snd newAchievements]; intros [= <- <-];
      cbn [users newAchievements].
    + eexists. split; [apply lookup_insert_eq|]. simpl. rewrite app_nil_r.
      repeat split; [constructor|]. intros x Hx. by apply elem_of_nil in Hx.
    + exists u'. split; [apply lookup_insert_eq|]. done.
Qed.

(** C8.  Over one sweep or any number of them, by the direct check or
    by the administrative award, no achievement id is awarded twice and
    none is awarded that the user held at the start; the ids awarded are
    appended to the ids held, so a list without duplicates stays without
    duplicates. *)
Theorem sweeps_award_only_new (uid : ObjectId) (db : Db) (ids : list ObjectId) (db' : Db) :
  sweeps uid db ids db' ->
  forall u,
    users db !! uid = Some u ->
    exists u',
      users db' !! uid = Some u'
      /\ heldIds u' = heldIds u ++ ids
      /\ NoDup ids
      /\ (forall x, x ∈ ids -> x ∉ heldIds u)
      /\ (NoDup (heldIds u) -> NoDup (heldIds u')).
Proof.
  assert (Hdup : forall (h ids : list ObjectId),
             NoDup ids -> (forall x, x ∈ ids -> x ∉ h) -> NoDup h -> NoDup (h ++ ids)).
  { intros h l Hl Hfr Hh. apply NoDup_app. repeat split; [done| |done].
    intros x Hx Hx'. by apply (Hfr x). }
  induction 1 as [db|db ids db1 rest db' Hsweep Hrest IH|db db1 rest db' Hsame Hrest IH];
    intros u Hu.
  - exists u. rewrite app_nil_r. repeat split; [done|constructor| |done].
    intros x Hx. by apply elem_of_nil in Hx.
  - destruct (sweep_fresh _ _ _ _ _ Hsweep Hu) as (u1 & Hu1 & Hh1 & Hnd1 & Hfr1).
    destruct (IH u1 Hu1) as (u' & Hu' & Hh' & Hnd' & Hfr' & _).
    exists u'. split; [done|]. rewrite Hh', Hh1, <- app_assoc. split; [done|].
    assert (Hfr : forall x, x ∈ ids ++ rest -> x ∉ heldIds u).
    { intros x [Hx|Hx]%elem_of_app; [by apply Hfr1|].
      intros Hin. apply (Hfr' x Hx). rewrite Hh1. apply elem_of_app. by left. }
    assert (Hnd : NoDup (ids ++ rest)).
    { apply NoDup_app. repeat split; [done| |done].
      intros x Hx Hx'. apply (Hfr' x Hx'). rewrite Hh1. apply elem_of_app. by right. }
    repeat split; [done|done|]. intros Hnu. by apply Hdup.
  - rewrite Hu in Hsame. destruct (users db1 !! uid) as [u1|] eqn:Hu1; [|done].
    injection Hsame as Hach.
    destruct (IH u1 eq_refl) as (u' & Hu' & Hh' & Hnd' & Hfr' & Hdup').
    unfold heldIds in Hh', Hfr', Hdup'. rewrite Hach in Hh', Hfr', Hdup'.
    by exists u'.
Qed.

(** Two direct checks in a row for the seed student: the first awards
    "Academic Excellence", the second nothing. *)
Lemma sweeps_award_only_new_witness :
  let db1 := snd (checkUserAchievements 20240301 1%N catalogue_db) in
  let db2 := snd (checkUserAchievements 20240302 1%N db1) in
  exists u', users db2 !! 1%N = Some u' /\ heldIds u' = [11%N] /\ NoDup (heldIds u').
Proof.
  intros db1 db2.
  destruct (sweeps_award_only_new 1%N catalogue_db ([11%N] ++ [] ++ []) db2) with (u := seed_student)
    as (u' & Hu' & Hheld & _ & _ & Hnd).
  - apply (sweeps_run 1%N catalogue_db [11%N] db1 ([] ++ []) db2).
    + apply (sweep_check 1%N 20240301 catalogue_db [(academic_excellence, 500)] db1).
      vm_compute. reflexivity.
    + apply (sweeps_run 1%N db1 [] db2 [] db2); [|apply sweeps_done].
      apply (sweep_check 1%N 20240302 db1 [] db2). vm_compute. reflexivity.
  - reflexivity.
  - exists u'. split; [exact Hu'|]. split; [exact Hheld|]. apply Hnd. constructor.
Defined.

(** ** The running total in the direct check *)

Lemma checkUserAchievements_loop_award now u new a :
  hasAchievement u a = false ->
  Achievement.checkEligibility a u = true ->
  checkUserAchievements_loop now (u, new) a
  = (awarded_user now a u, new ++ [(a, Achievement.points a)]).
Proof. intros Hh He. unfold checkUserAchievements_loop. by rewrite Hh, He. Qed.

(** C9.  The direct check tests each achievement against the user as the
    awards made so far in the same request have left it: when the award of
    [a] lifts [totalPoints] to the threshold of the next achievement [b],
    [b] is awarded in the same request; and there are inputs on which [b]
    did not qualify when the request began. *)
Theorem check_uses_running_total :
  (forall now db uid u a b,
      award_unlocks_next db uid u a b ->
      exists more db',
        checkUserAchievements now uid db
        = (Ok ((a, Achievement.points a) :: (b, Achievement.points b) :: more), db'))
  /\ (exists db uid u a b,
         award_unlocks_next db uid u a b /\ Achievement.checkEligibility b u = false).
Proof.
  split.
  - intros now db uid u a b (Hu & (rest & Hfilter) & Hha & Hea & Hhb & Hne & Hty & Hval).
    assert (Hact : Achievement.isActive b = true).
    { assert (Hin : In b (List.filter Achievement.isActive (achievements db)))
        by (rewrite Hfilter; right; by left).
      by apply List.filter_In in Hin as [_ Hin]. }
    assert (Hhb1 : hasAchievement (awarded_user now a u) b = false).
    { unfold hasAchievement in *. simpl. rewrite existsb_app, Hhb. simpl.
      rewrite orb_false_r. apply N.eqb_neq. congruence. }
    assert (Heb1 : Achievement.checkEligibility b (awarded_user now a u) = true).
    { unfold Achievement.checkEligibility. rewrite Hact, Hty. simpl.
      by apply Z.leb_le. }
    run_handler. rewrite Hu, Hfilter. cbn [fold_left].
    rewrite (checkUserAchievements_loop_award now u [] a Hha Hea).
    rewrite (checkUserAchievements_loop_award now _ _ b Hhb1 Heb1).
    match goal with
    | |- context [fold_left ?f ?l ?st] =>
        destruct (checkUserAchievements_loop_fresh now l st) as (newly & Hnew & _);
        destruct (fold_left f l st) as [u' new'] eqn:Hst
    end.
    simpl in Hnew. subst new'. cbn [fst snd]. by eexists _, _.
  - exists running_total_db, 1%N, almost_excellent, first_steps, academic_excellence.
    split; [|reflexivity]. unfold award_unlocks_next.
    split; [reflexivity|]. split; [by exists []|].
    split; [reflexivity|]. split; [reflexivity|]. split; [reflexivity|].
    split; [discriminate|]. split; [reflexivity|]. vm_compute. discriminate.
Qed.

(** ** The sweep inside the administrative award *)

(** C2, at the failing input.  The administrator awards 100 points: the
    user reaches 2050 and "Academic Excellence" (worth 500) is appended to
    the achievement list and reported, but [totalPoints] stays at 2050 and
    the level at 11; the direct check run on the same user credits the 500
    points. *)
Theorem award_sweep_omits_achievement_points :
  exists resp db' u',
    awardPointsForEvent 20240301 7%N (Some (IdString.toString 1%N)) (Some 100) award_db
    = (Ok resp, db')
    /\ newAchievements resp = [academic_excellence]
    /\ users db' !! 1%N = Some u'
    /\ heldIds u' = [11%N]
    /\ User.totalPoints u' = 2050
    /\ User.level u' = 11
    /\ User.totalPoints u' <> 1950 + 100 + 500
    /\ exists u'',
         users (snd (checkUserAchievements 20240302 1%N
                       (mkDb {[ 1%N := User.mk 2050 11 [] [] ]} ∅ [academic_excellence])))
           !! 1%N = Some u''
         /\ User.totalPoints u'' = 2050 + 500.
Proof.
  eexists _, _, _. split; [vm_compute; reflexivity|].
  split; [reflexivity|]. split; [vm_compute; reflexivity|].
  split; [reflexivity|]. split; [reflexivity|]. split; [reflexivity|].
  split; [vm_compute; discriminate|].
  eexists. split; [vm_compute; reflexivity|]. reflexivity.
Qed.

(** In general the administrative award adds the awarded points and
    nothing else to [totalPoints], whatever the sweep appends. *)
Lemma awardPointsForEvent_totalPoints now eid uid c pts db resp db' u :
  awardPointsForEvent now eid (Some (IdString.mk uid c)) pts db = (Ok resp, db') ->
  users db !! uid = Some u ->
  exists p u',
    truthy pts = Some p /\ users db' !! uid = Some u'
    /\ User.totalPoints u' = User.totalPoints u + p.
Proof.
  run_handler. destruct (events db !! eid) as [e|]; [|discriminate].
  destruct (truthy pts) as [p|]; [|discriminate]. intros Hrun Hu. rewrite Hu in Hrun.
  destruct (List.find _ _); [discriminate|]. revert Hrun.
  cbn [fst snd users events achievements].
  match goal with
  | |- context [fold_left ?f ?l ?st] =>
      pose proof (awardPointsForEvent_loop_ledger now l st) as (Htp & _ & _);
      destruct (fold_left f l st) as [u' new] eqn:Hst
  end.
  cbn [fst snd] in *. destruct new; cbn [fst snd users]; intros [= <- <-]; cbn [users].
  - eexists p, _. split; [done|]. split; [apply lookup_insert_eq|]. reflexivity.
  - exists p, u'. split; [done|]. split; [apply lookup_insert_eq|]. rewrite Htp. reflexivity.
Qed.

(** * Further properties *)

(** ** What the two loops do to the user *)

Lemma set_achievements_same (u : User.t) :
  User.set_achievements (User.achievements u ++ []) u = u.
Proof. destruct u. unfold User.set_achievements. simpl. by rewrite app_nil_r. Qed.

(** The loop of [awardPointsForEvent] appends one entry for each
    achievement it reports and changes nothing else of the user. *)
Lemma awardPointsForEvent_loop_effect now (l : list Achievement.t) :
  forall u new,
    exists newly,
      fold_left (awardPointsForEvent_loop now) l (u, new)
      = (User.set_achievements (User.achievements u ++ achievement_entries now newly) u,
         new ++ newly)
      /\ Forall (fun a => In a l) newly.
Proof.
  induction l as [|a l IH]; intros u new; cbn [fold_left].
  - exists []. simpl. by rewrite set_achievements_same, app_nil_r.
  - destruct (negb (hasAchievement u a) && Achievement.checkEligibility a u) eqn:Hc.
    + assert (Hstep : awardPointsForEvent_loop now (u, new) a
                      = (User.set_achievements
                           (User.achievements u ++ achievement_entries now [a]) u,
                         new ++ [a]))
        by (unfold awardPointsForEvent_loop; by rewrite Hc).
      rewrite Hstep.
      match goal with
      | |- context [fold_left _ l (?u1, ?n1)] => destruct (IH u1 n1) as (newly & -> & Hin)
      end.
      exists (a :: newly). split.
      * unfold User.set_achievements. simpl. by rewrite <- !app_assoc.
      * constructor; [by left|]. eapply Forall_impl; [exact Hin|]. intros x Hx. by right.
    + assert (Hstep : awardPointsForEvent_loop now (u, new) a = (u, new))
        by (unfold awardPointsForEvent_loop; by rewrite Hc).
      rewrite Hstep. destruct (IH u new) as (newly & -> & Hin). exists newly.
      split; [done|]. eapply Forall_impl; [exact Hin|]. intros x Hx. by right.
Qed.

Lemma checked_user_nil now u : checked_user now [] u = u.
Proof.
  destruct u. unfold checked_user. simpl. rewrite app_nil_r. f_equal. lia.
Qed.

Lemma checked_user_cons now a newly u :
  checked_user now newly (awarded_user now a u) = checked_user now (a :: newly) u.
Proof.
  unfold checked_user, awarded_user. simpl. rewrite <- app_assoc. simpl.
  destruct newly; simpl; rewrite ?Z.add_0_r, ?Z.add_assoc; reflexivity.
Qed.

(** The loop of [checkUserAchievements] credits each achievement it
    reports, with the points of the achievement as the reported points. *)
Lemma checkUserAchievements_loop_effect now (l : list Achievement.t) :
  forall u new,
    exists newly,
      fold_left (checkUserAchievements_loop now) l (u, new)
      = (checked_user now newly u,
         new ++ map (fun a => (a, Achievement.points a)) newly)
      /\ Forall (fun a => In a l) newly.
Proof.
  induction l as [|a l IH]; intros u new; cbn [fold_left].
  - exists []. simpl. by rewrite checked_user_nil, app_nil_r.
  - destruct (negb (hasAchievement u a) && Achievement.checkEligibility a u) eqn:Hc.
    + apply andb_true_iff in Hc as [Hh%negb_true_iff He].
      rewrite (checkUserAchievements_loop_award now u new a Hh He).
      destruct (IH (awarded_user now a u) (new ++ [(a, Achievement.points a)]))
        as (newly & -> & Hin).
      exists (a :: newly). split.
      * rewrite checked_user_cons. simpl. by rewrite <- app_assoc.
      * constructor; [by left|]. eapply Forall_impl; [exact Hin|]. intros x Hx. by right.
    + assert (Hstep : checkUserAchievements_loop now (u, new) a = (u, new))
        by (unfold checkUserAchievements_loop; by rewrite Hc).
      rewrite Hstep. destruct (IH u new) as (newly & -> & Hin). exists newly.
      split; [done|]. eapply Forall_impl; [exact Hin|]. intros x Hx. by right.
Qed.

(** ** The handlers, outcome by outcome *)

Lemma find_None_existsb {A} (f : A -> bool) (l : list A) :
  List.find f l = None <-> existsb f l = false.
Proof.
  induction l as [|x l IH]; simpl; [done|].
  destruct (f x); simpl; [split; discriminate | exact IH].
Qed.

Lemma participateInEvent_run now uid eid db e u :
  events db !! eid = Some e ->
  users db !! uid = Some u ->
  Event.canParticipate e uid = true ->
  participateInEvent now uid eid db
  = (Ok (Event.points e),
     mkDb (<[uid := credited_user now eid (Event.points e) u]> (users db))
          (<[eid := joined_event now uid e]> (events db))
          (achievements db)).
Proof.
  intros He Hu Hcan. run_handler. rewrite He, Hcan. cbn [negb]. rewrite Hu.
  by rewrite preSave_points.
Qed.

(** A Join or a Leave that throws has written nothing, unless what it
    throws is the [TypeError] on a missing user document. *)
Lemma participateInEvent_throw now uid eid db code msg db' :
  participateInEvent now uid eid db = (Throw code msg, db') ->
  db' = db \/ (code, msg) = (500, "TypeError").
Proof.
  run_handler. destruct (events db !! eid) as [e|]; [|intros [= _ _ <-]; by left].
  destruct (Event.canParticipate e uid); cbn [negb]; [|intros [= _ _ <-]; by left].
  destruct (users db !! uid) as [u|]; [discriminate|]. intros [= <- <- _]. by right.
Qed.

Lemma removeParticipation_throw now uid id db code msg db' :
  removeParticipation now uid id db = (Throw code msg, db') ->
  db' = db \/ (code, msg) = (500, "TypeError").
Proof.
  run_handler.
  destruct (events db !! IdString.cast id) as [e|]; [|intros [= _ _ <-]; by left].
  destruct (findIndex _ _) as [i|]; [|intros [= _ _ <-]; by left].
  destruct (Event.participants e !! i) as [p|]; [|intros [= <- <- _]; by right].
  cbn [users]. destruct (users db !! uid) as [u|]; [discriminate|].
  intros [= <- <- _]. by right.
Qed.

Lemma awardPointsForEvent_run now eid uid c p db e u :
  events db !! eid = Some e ->
  users db !! uid = Some u ->
  p <> 0 ->
  (c = true -> Event.isParticipating e uid = false) ->
  exists newly,
    Forall (fun a => In a (List.filter Achievement.isActive (achievements db))) newly
    /\ awardPointsForEvent now eid (Some (IdString.mk uid c)) (Some p) db
       = (Ok (mkAwardResponse p ((User.totalPoints u + p) / 200 + 1) newly),
          mkDb (<[uid := User.set_achievements
                           (User.achievements u ++ achievement_entries now newly)
                           (credited_user now eid p u)]> (users db))
               (<[eid := enrolled_event now uid p e]> (events db))
               (achievements db)).
Proof.
  intros He Hu Hp Hpart. run_handler. rewrite He.
  assert (Htruthy : truthy (Some p) = Some p) by (destruct p; simpl; congruence).
  rewrite Htruthy, Hu.
  assert (Hfind : List.find
                    (fun participant =>
                       IdString.eqb_toString (Participant.userId participant)
                                             (IdString.mk uid c))
                    (Event.participants e) = None).
  { apply find_None_existsb. unfold IdString.eqb_toString.
    cbn [IdString.cast IdString.canonical]. destruct c; [by apply Hpart|].
    by induction (Event.participants e). }
  rewrite Hfind. cbn [fst snd users events achievements].
  match goal with
  | |- context [fold_left ?f ?l (?u1, [])] =>
      destruct (awardPointsForEvent_loop_effect now l u1 []) as (newly & -> & Hin)
  end.
  exists newly. split; [exact Hin|]. cbn [fst snd app].
  unfold credited_user, User.set_achievements, User.set_eventsParticipated,
    User.set_level, User.set_totalPoints, User.calculateLevel, enrolled_event.
  cbn [User.totalPoints User.level User.achievements User.eventsParticipated].
  destruct newly as [|a newly]; cbn [fst snd users events achievements].
  - unfold achievement_entries. cbn [map]. rewrite app_nil_r. reflexivity.
  - rewrite insert_insert_eq. reflexivity.
Qed.

Lemma awardPointsForEvent_Ok now eid userId points db resp db' :
  awardPointsForEvent now eid userId points db = (Ok resp, db') ->
  exists e uid c p u,
    events db !! eid = Some e /\ userId = Some (IdString.mk uid c)
    /\ points = Some p /\ p <> 0
    /\ users db !! uid = Some u
    /\ (c = true -> Event.isParticipating e uid = false).
Proof.
  run_handler.
  destruct (events db !! eid) as [e|] eqn:He; [|discriminate].
  destruct userId as [[uid c]|]; [|discriminate].
  destruct (truthy points) as [p|] eqn:Hp; [|discriminate].
  cbn [IdString.cast].
  destruct (users db !! uid) as [u|] eqn:Hu; [|discriminate].
  destruct (List.find _ _) eqn:Hfind; [discriminate|]. intros _.
  exists e, uid, c, p, u.
  split; [done|]. split; [done|].
  split; [destruct points as [[| |]|]; simpl in Hp; congruence|].
  split; [destruct points as [[| |]|]; simpl in Hp; congruence|].
  split; [done|]. intros ->. apply find_None_existsb in Hfind. exact Hfind.
Qed.

Lemma awardPointsForEvent_throw now eid userId pts db code msg db' :
  awardPointsForEvent now eid userId pts db = (Throw code msg, db') -> db' = db.
Proof.
  run_handler. destruct (events db !! eid) as [e|]; [|by intros [= _ _ <-]].
  destruct userId as [[uid c]|]; [|by intros [= _ _ <-]].
  destruct (truthy pts) as [p|]; [|by intros [= _ _ <-]].
  cbn [IdString.cast].
  destruct (users db !! uid) as [u|]; [|by intros [= _ _ <-]].
  destruct (List.find _ _); [by intros [= _ _ <-]|].
  cbn [fst snd users events achievements].
  match goal with
  | |- context [fold_left ?f ?l ?st] => destruct (fold_left f l st) as [u' new]
  end.
  cbn [fst snd]. destruct new; discriminate.
Qed.

Lemma checkUserAchievements_run now uid db u :
  users db !! uid = Some u ->
  exists newly,
    Forall (fun a => In a (List.filter Achievement.isActive (achievements db))) newly
    /\ checkUserAchievements now uid db
       = (Ok (map (fun a => (a, Achievement.points a)) newly),
          match newly with
          | [] => db
          | _ :: _ => mkDb (<[uid := checked_user now newly u]> (users db))
                           (events db) (achievements db)
          end).
Proof.
  intros Hu. run_handler. rewrite Hu.
  match goal with
  | |- context [fold_left ?f ?l (?u1, [])] =>
      destruct (checkUserAchievements_loop_effect now l u1 []) as (newly & -> & Hin)
  end.
  exists newly. split; [exact Hin|]. cbn [fst snd app].
  by destruct newly.
Qed.
(** ** Errors and successes *)

Lemma TypeError_not_AppError : ~ In (500, "TypeError") AppErrors.
Proof. intros H. repeat (destruct H as [H|H]; [discriminate|]). exact H. Qed.

(** X1.  The four handlers throw their own errors before they save
    anything: a request to Join, Leave, the administrative award or the
    direct check that ends in one of the [AppError]s of the handlers has
    written nothing. *)
Theorem failed_request_writes_nothing (code : Z) (msg : string) (db db' : Db) :
  failed_request code msg db db' ->
  In (code, msg) AppErrors ->
  db' = db.
Proof.
  intros [now uid eid db0 db0' Hrun|now uid id db0 db0' Hrun
         |now eid userId pts db0 db0' Hrun|now uid db0 db0' Hrun] Hin.
  - destruct (participateInEvent_throw _ _ _ _ _ _ _ Hrun) as [H|H]; [done|].
    rewrite H in Hin. by apply TypeError_not_AppError in Hin.
  - destruct (removeParticipation_throw _ _ _ _ _ _ _ Hrun) as [H|H]; [done|].
    rewrite H in Hin. by apply TypeError_not_AppError in Hin.
  - by apply (awardPointsForEvent_throw _ _ _ _ _ _ _ _ Hrun).
  - revert Hrun. run_handler. destruct (users db0 !! uid) as [u|].
    + match goal with
      | |- context [fold_left ?f ?l ?st] => destruct (fold_left f l st) as [u' new]
      end.
      cbn [fst snd]. destruct new; discriminate.
    + case_match; [discriminate|]. by intros [= _ _ <-].
Qed.

(** The student asks to leave an event never joined. *)
Lemma failed_request_writes_nothing_witness :
  snd (removeParticipation 20240301 1%N (IdString.toString 7%N) seed_db) = seed_db.
Proof.
  apply (failed_request_writes_nothing 400 "User is not participating in this event").
  - apply (failed_remove _ _ 20240301 1%N (IdString.toString 7%N) seed_db).
    vm_compute. reflexivity.
  - right. right. left. reflexivity.
Defined.

(** A Join for a user whose document is missing ends in the [TypeError],
    after the event has been saved with the user in it. *)
Example join_of_missing_user_saves_event :
  exists db',
    participateInEvent 20240301 9%N 7%N seed_db = (Throw 500 "TypeError", db')
    /\ events db' !! 7%N
       = Some (Event.set_participants [Participant.mk 9%N 150 20240301] seed_event).
Proof. eexists. split; [vm_compute; reflexivity|]. reflexivity. Qed.

(** X2.  The administrative award succeeds exactly when the event and
    the user exist, [points] is a number other than 0, and no participant
    of the event has an id that prints as the string [userId].  Neither
    the event's [isActive], [status] and [maxParticipants] nor the sign of
    [points] is looked at, and a [userId] in another spelling than the
    printed one is found in no participant list. *)
Theorem award_succeeds_iff
    (now : Z) (eid : ObjectId) (userId : option IdString.t) (points : option Z) (db : Db) :
  (exists resp db', awardPointsForEvent now eid userId points db = (Ok resp, db'))
  <-> exists e s p u,
        events db !! eid = Some e /\ userId = Some s /\ points = Some p /\ p <> 0
        /\ users db !! IdString.cast s = Some u
        /\ (IdString.canonical s = true ->
            Event.isParticipating e (IdString.cast s) = false).
Proof.
  split.
  - intros (resp & db' & Hrun).
    destruct (awardPointsForEvent_Ok _ _ _ _ _ _ _ Hrun)
      as (e & uid & c & p & u & He & -> & -> & Hp & Hu & Hpart).
    by exists e, (IdString.mk uid c), p, u.
  - intros (e & [uid c] & p & u & He & -> & -> & Hp & Hu & Hpart).
    destruct (awardPointsForEvent_run now eid uid c p db e u He Hu Hp Hpart)
      as (newly & _ & Heq).
    eauto.
Qed.

(** The administrator takes 50 points from user 1 for a cancelled,
    inactive, full event. *)
Example award_on_cancelled_event :
  exists resp db' u',
    awardPointsForEvent 20240301 7%N (Some (IdString.toString 1%N)) (Some (-50)) cancelled_db
    = (Ok resp, db')
    /\ users db' !! 1%N = Some u'
    /\ User.totalPoints u' = -20 /\ User.level u' = 0.
Proof.
  eexists _, _, _. split; [vm_compute; reflexivity|].
  split; [vm_compute; reflexivity|]. split; reflexivity.
Qed.

(** User 2 takes part in the full event; an award that names user 2 in
    upper case lists the user a second time. *)
Example award_in_another_spelling_lists_twice :
  exists resp db' e',
    awardPointsForEvent 20240302 7%N (Some (IdString.mk 2%N false)) (Some 40) full_db
    = (Ok resp, db')
    /\ events db' !! 7%N = Some e'
    /\ map Participant.userId (Event.participants e') = [2%N; 2%N]
    /\ awardPointsForEvent 20240302 7%N (Some (IdString.toString 2%N)) (Some 40) full_db
       = (Throw 400 "User is already participating in this event", full_db).
Proof.
  eexists _, _, _. split; [vm_compute; reflexivity|].
  split; [vm_compute; reflexivity|]. split; reflexivity.
Qed.


(** ** What no request does *)

Lemma status_step_refl s : status_step s s.
Proof. by left. Qed.

Lemma status_step_trans s1 s2 s3 :
  status_step s1 s2 -> status_step s2 s3 -> status_step s1 s3.
Proof.
  intros [->|[-> ->]] [->|[H ->]]; try (by left); try (by right); discriminate.
Qed.

Lemma event_kept_refl e : event_kept e e.
Proof. repeat split; try done. apply status_step_refl. Qed.

Lemma event_kept_trans e1 e2 e3 : event_kept e1 e2 -> event_kept e2 e3 -> event_kept e1 e3.
Proof.
  intros (Hp & Hd & Hm & Ha & Hs) (Hp' & Hd' & Hm' & Ha' & Hs').
  repeat split; [congruence..| tauto | by eapply status_step_trans].
Qed.

Lemma event_kept_preSave now e : event_kept e (Event.preSave now e).
Proof.
  unfold Event.preSave. destruct (bool_decide _ && _) eqn:Hc; [|apply event_kept_refl].
  apply andb_true_iff in Hc as [Hs%bool_decide_eq_true _].
  repeat split; try done. by right.
Qed.

Lemma event_kept_saved now e ps :
  event_kept e (Event.preSave now (Event.set_participants ps e)).
Proof.
  apply (event_kept_trans _ (Event.set_participants ps e)); [|apply event_kept_preSave].
  repeat split; try done. apply status_step_refl.
Qed.

Lemma participateInEvent_shape now uid eid db :
  users_shape uid db (snd (participateInEvent now uid eid db))
  /\ events_shape eid db (snd (participateInEvent now uid eid db)).
Proof.
  run_handler. destruct (events db !! eid) as [e|] eqn:He; [|split; by left].
  destruct (Event.canParticipate e uid); cbn [negb fst snd]; [|split; by left].
  assert (Hev : forall db1, events db1 = <[eid := joined_event now uid e]> (events db) ->
                            events_shape eid db db1).
  { intros db1 H1. right. exists e, (joined_event now uid e).
    repeat split; try done; apply event_kept_saved. }
  destruct (users db !! uid) as [u|] eqn:Hu; cbn [fst snd]; split; try (by apply Hev).
  - right. exists u. eexists _, []. cbn [users]. split; [done|]. split; [done|].
    simpl. by rewrite app_nil_r.
  - by left.
Qed.

Lemma removeParticipation_shape now uid eid c db :
  users_shape uid db (snd (removeParticipation now uid (IdString.mk eid c) db))
  /\ events_shape eid db (snd (removeParticipation now uid (IdString.mk eid c) db)).
Proof.
  run_handler. destruct (events db !! eid) as [e|] eqn:He; [|split; by left].
  destruct (findIndex _ _) as [i|]; [|split; by left].
  destruct (Event.participants e !! i) as [p|]; [|split; by left].
  cbn [users].
  assert (Hev : forall db1, events db1 = <[eid := left_event now i e]> (events db) ->
                            events_shape eid db db1).
  { intros db1 H1. right. exists e, (left_event now i e).
    repeat split; try done; apply event_kept_saved. }
  destruct (users db !! uid) as [u|] eqn:Hu; cbn [fst snd]; split; try (by apply Hev).
  - right. exists u. eexists _, []. cbn [users]. split; [done|]. split; [done|].
    simpl. by rewrite app_nil_r.
  - by left.
Qed.

Lemma awardPointsForEvent_shape now eid userId pts db :
  users_shape (default 0%N (IdString.cast <$> userId)) db
              (snd (awardPointsForEvent now eid userId pts db))
  /\ events_shape eid db (snd (awardPointsForEvent now eid userId pts db)).
Proof.
  destruct (awardPointsForEvent now eid userId pts db) as [[resp|code m] db'] eqn:Hrun.
  - destruct (awardPointsForEvent_Ok _ _ _ _ _ _ _ Hrun)
      as (e & uid & c & p & u & He & -> & -> & Hp & Hu & Hpart).
    destruct (awardPointsForEvent_run now eid uid c p db e u He Hu Hp Hpart)
      as (newly & _ & Heq).
    rewrite Heq in Hrun. injection Hrun as <- <-.
    cbn [snd default fmap option_fmap option_map IdString.cast]. split.
    + right. exists u. eexists _, _. cbn [users]. split; [done|]. split; [done|].
      reflexivity.
    + right. exists e, (enrolled_event now uid p e). cbn [events].
      repeat split; try done; apply event_kept_saved.
  - apply awardPointsForEvent_throw in Hrun as ->. split; by left.
Qed.

Lemma checkUserAchievements_shape now uid db :
  users_shape uid db (snd (checkUserAchievements now uid db))
  /\ events db = events (snd (checkUserAchievements now uid db)).
Proof.
  destruct (users db !! uid) as [u|] eqn:Hu.
  - destruct (checkUserAchievements_run now uid db u Hu) as (newly & _ & ->).
    cbn [snd]. destruct newly as [|a newly]; [split; [by left|done]|].
    split; [|done]. right. exists u. eexists _, _. cbn [users].
    split; [done|]. split; [done|]. reflexivity.
  - run_handler. rewrite Hu. case_match; split; done || by left.
Qed.

Lemma deleteEvent_shape now eid db :
  users db = users (snd (deleteEvent now eid db))
  /\ events_shape eid db (snd (deleteEvent now eid db))
  /\ achievements db = achievements (snd (deleteEvent now eid db)).
Proof.
  run_delete. destruct (events db !! eid) as [e|] eqn:He; cbn [fst snd users events achievements].
  - split; [done|]. split; [|done]. right. eexists e, _. split; [done|]. split; [done|].
    apply (event_kept_trans _ (Event_set_isActive false e)); [|apply event_kept_preSave].
    repeat split; try done. apply status_step_refl.
  - split; [done|]. split; [by left|done].
Qed.

Lemma deleteAchievement_shape aid db :
  users db = users (snd (deleteAchievement aid db))
  /\ events db = events (snd (deleteAchievement aid db)).
Proof.
  run_delete. destruct (List.find _ _) as [a|]; cbn [fst snd]; [|done].
  destruct (Achievement_preSave _); done.
Qed.

Lemma request_shape db db' :
  request db db' -> exists uid eid, users_shape uid db db' /\ events_shape eid db db'.
Proof.
  intros [db0 db0' Hs|now eid db0|aid db0].
  - destruct Hs as [now uid eid db1|now uid [eid c] db1|now eid userId pts db1|now uid db1].
    + exists uid, eid. apply participateInEvent_shape.
    + exists uid, eid. apply removeParticipation_shape.
    + exists (default 0%N (IdString.cast <$> userId)), eid. apply awardPointsForEvent_shape.
    + exists uid, 0%N. destruct (checkUserAchievements_shape now uid db1) as [H1 H2].
      split; [done|]. by left.
  - exists 0%N, eid. destruct (deleteEvent_shape now eid db0) as (H1 & H2 & _).
    split; [by left|done].
  - exists 0%N, 0%N. destruct (deleteAchievement_shape aid db0) as (H1 & H2).
    split; by left.
Qed.

Lemma serves_achievements db db' : serves db db' -> achievements db' = achievements db.
Proof.
  intros [now uid eid db1|now uid id db1|now eid userId pts db1|now uid db1].
  - run_handler. by repeat (case_match; cbn [fst snd achievements]).
  - run_handler. by repeat (case_match; cbn [fst snd achievements]).
  - destruct (awardPointsForEvent now eid userId pts db1) as [[resp|code m] db2] eqn:Hrun.
    + destruct (awardPointsForEvent_Ok _ _ _ _ _ _ _ Hrun)
        as (e & uid & c & p & u & He & -> & -> & Hp & Hu & Hpart).
      destruct (awardPointsForEvent_run now eid uid c p db1 e u He Hu Hp Hpart)
        as (newly & _ & Heq).
      rewrite Heq in Hrun. by injection Hrun as <- <-.
    + by apply awardPointsForEvent_throw in Hrun as ->.
  - destruct (users db1 !! uid) as [u|] eqn:Hu.
    + destruct (checkUserAchievements_run now uid db1 u Hu) as (newly & _ & ->).
      by destruct newly.
    + run_handler. rewrite Hu. by case_match.
Qed.
Lemma events_shape_kept eid db db' k :
  events_shape eid db db' ->
  match events db !! k with
  | None => events db' !! k = None
  | Some e => exists e', events db' !! k = Some e' /\ event_kept e e'
  end.
Proof.
  intros [->|(e & e' & He & -> & Hk)].
  - destruct (events db !! k) as [e|]; [|done]. exists e. split; [done|apply event_kept_refl].
  - destruct (decide (eid = k)) as [->|Hne].
    + rewrite He, lookup_insert_eq. by exists e'.
    + rewrite lookup_insert_ne by done. destruct (events db !! k) as [e0|]; [|done].
      exists e0. split; [done|apply event_kept_refl].
Qed.

Lemma users_shape_kept uid db db' k :
  users_shape uid db db' ->
  match users db !! k with
  | None => users db' !! k = None
  | Some u => exists u' more, users db' !! k = Some u'
                              /\ User.achievements u' = User.achievements u ++ more
  end.
Proof.
  intros [->|(u & u' & more & Hu & -> & Hk)].
  - destruct (users db !! k) as [u|]; [|done]. exists u, []. by rewrite app_nil_r.
  - destruct (decide (uid = k)) as [->|Hne].
    + rewrite Hu, lookup_insert_eq. by exists u', more.
    + rewrite lookup_insert_ne by done. destruct (users db !! k) as [u0|]; [|done].
      exists u0, []. by rewrite app_nil_r.
Qed.

Lemma requests_event_kept (db db' : Db) (k : ObjectId) :
  rtc request db db' ->
  match events db !! k with
  | None => events db' !! k = None
  | Some e => exists e', events db' !! k = Some e' /\ event_kept e e'
  end.
Proof.
  induction 1 as [db|db db1 db' Hstep _ IH].
  - destruct (events db !! k) as [e|]; [|done]. exists e. split; [done|apply event_kept_refl].
  - destruct (request_shape _ _ Hstep) as (uid & eid & _ & Hev).
    pose proof (events_shape_kept eid db db1 k Hev) as H1.
    destruct (events db !! k) as [e|].
    + destruct H1 as (e1 & He1 & Hk1). rewrite He1 in IH.
      destruct IH as (e' & He' & Hk'). exists e'. split; [done|].
      by apply (event_kept_trans _ e1).
    + by rewrite H1 in IH.
Qed.

(** X4.  Over any number of requests to the six handlers no event is
    created or removed, and an event keeps its points, date and capacity;
    it is never reactivated, and its status changes, if at all, from
    upcoming to completed. *)
Theorem requests_keep_events (db db' : Db) (k : ObjectId) :
  rtc request db db' ->
  match events db !! k with
  | None => events db' !! k = None
  | Some e =>
      exists e', events db' !! k = Some e'
                 /\ Event.points e' = Event.points e
                 /\ Event.date e' = Event.date e
                 /\ Event.maxParticipants e' = Event.maxParticipants e
                 /\ (Event.isActive e' = true -> Event.isActive e = true)
                 /\ status_step (Event.status e) (Event.status e')
  end.
Proof. apply requests_event_kept. Qed.

(** The seed event after the student joined on the day it was held and a
    deletion: still worth 150, completed by the save of the Join. *)
Lemma requests_keep_events_witness :
  exists e',
    events (snd (deleteEvent 20240321 7%N (snd (participateInEvent 20240320 1%N 7%N seed_db))))
      !! 7%N = Some e'
    /\ Event.points e' = 150
    /\ Event.status e' = completed.
Proof.
  pose proof (requests_keep_events seed_db
                (snd (deleteEvent 20240321 7%N
                        (snd (participateInEvent 20240320 1%N 7%N seed_db)))) 7%N) as H.
  destruct H as (e' & He' & Hp & _).
  - eapply rtc_l; [apply request_serves, serves_participate|].
    eapply rtc_l; [apply request_deleteEvent|]. apply rtc_refl.
  - exists e'. split; [exact He'|]. split; [exact Hp|].
    vm_compute in He'. by injection He' as <-.
Defined.

(** X5.  Over any number of requests to the six handlers no user
    document is created or removed, and a user's achievement list only
    grows at its end. *)
Theorem requests_keep_users (db db' : Db) (k : ObjectId) :
  rtc request db db' ->
  match users db !! k with
  | None => users db' !! k = None
  | Some u => exists u' more, users db' !! k = Some u'
                              /\ User.achievements u' = User.achievements u ++ more
  end.
Proof.
  induction 1 as [db|db db1 db' Hstep _ IH].
  - destruct (users db !! k) as [u|]; [|done]. exists u, []. by rewrite app_nil_r.
  - destruct (request_shape _ _ Hstep) as (uid & eid & Hus & _).
    pose proof (users_shape_kept uid db db1 k Hus) as H1.
    destruct (users db !! k) as [u|].
    + destruct H1 as (u1 & more1 & Hu1 & Ha1). rewrite Hu1 in IH.
      destruct IH as (u' & more & Hu' & Ha'). exists u', (more1 ++ more).
      split; [done|]. by rewrite Ha', Ha1, app_assoc.
    + by rewrite H1 in IH.
Qed.

(** The student keeps "Academic Excellence" through a Join and a Leave. *)
Lemma requests_keep_users_witness :
  let db1 := snd (checkUserAchievements 20240301 1%N catalogue_db) in
  let db2 := snd (participateInEvent 20240302 1%N 7%N db1) in
  let db3 := snd (removeParticipation 20240303 1%N (IdString.toString 7%N) db2) in
  exists u' more,
    users db3 !! 1%N = Some u'
    /\ User.achievements u' = [UserAchievement.mk 11%N 20240301 500] ++ more.
Proof.
  intros db1 db2 db3.
  pose proof (requests_keep_users db1 db3 1%N) as H.
  assert (Hu : users db1 !! 1%N
               = Some (User.mk 3350 17 [UserAchievement.mk 11%N 20240301 500] []))
    by (vm_compute; reflexivity).
  rewrite Hu in H. apply H.
  eapply rtc_l; [apply request_serves, serves_participate|].
  eapply rtc_l; [apply request_serves, serves_remove|]. apply rtc_refl.
Defined.

(** X6.  A request made for one user and one event, in whatever spelling
    the ids are sent, writes no other user document and no other event
    document, and leaves the achievement catalogue alone. *)
Theorem request_for_writes_nothing_else (uid eid : ObjectId) (db db' : Db) :
  request_for uid eid db db' ->
  (forall k, k <> uid -> users db' !! k = users db !! k)
  /\ (forall k, k <> eid -> events db' !! k = events db !! k)
  /\ achievements db' = achievements db.
Proof.
  intros Hreq.
  assert (Hshape : users_shape uid db db' /\ events_shape eid db db'
                   /\ achievements db' = achievements db).
  { destruct Hreq as [now db|now c db|now c pts db|now db|now db].
    - split; [apply participateInEvent_shape|]. split; [apply participateInEvent_shape|].
      apply serves_achievements, serves_participate.
    - split; [apply removeParticipation_shape|]. split; [apply removeParticipation_shape|].
      apply serves_achievements, serves_remove.
    - split; [apply (awardPointsForEvent_shape now eid (Some (IdString.mk uid c)))|].
      split; [apply awardPointsForEvent_shape|].
      apply serves_achievements, serves_award.
    - split; [apply checkUserAchievements_shape|]. split.
      + left. symmetry. apply checkUserAchievements_shape.
      + apply serves_achievements, serves_check.
    - destruct (deleteEvent_shape now eid db) as (H1 & H2 & H3).
      split; [by left|]. split; [done|]. by symmetry. }
  destruct Hshape as (Hus & Hev & Hcat). split; [|split; [|exact Hcat]].
  - intros k Hk. destruct Hus as [->|(u & u' & more & _ & -> & _)]; [done|].
    by rewrite lookup_insert_ne.
  - intros k Hk. destruct Hev as [->|(e & e' & _ & -> & _)]; [done|].
    by rewrite lookup_insert_ne.
Qed.

(** User 2 is untouched when user 1 takes the free place of the event. *)
Lemma request_for_writes_nothing_else_witness :
  users (snd (participateInEvent 20240302 1%N 7%N roomy_db)) !! 2%N = users roomy_db !! 2%N.
Proof.
  apply (request_for_writes_nothing_else 1%N 7%N roomy_db); [apply for_participate|done].
Defined.
(** ** Closed events *)

Lemma closed_kept e e' : event_kept e e' -> closed e -> closed e'.
Proof.
  intros (_ & _ & _ & Ha & Hs) [H|[H|H]].
  - left. destruct (Event.isActive e'); [|done]. rewrite Ha in H; done.
  - right. left. destruct Hs as [->|[Hs _]]; congruence.
  - right. right. destruct Hs as [->|[Hs _]]; congruence.
Qed.

Lemma closed_blocks now uid eid db e :
  events db !! eid = Some e -> closed e ->
  participateInEvent now uid eid db = (Throw 400 "Cannot participate in this event", db).
Proof.
  intros He Hc. apply (participateInEvent_blocked _ _ _ _ e He).
  unfold Event.canParticipate. destruct Hc as [-> | [-> | ->]]; simpl; [done|..].
  - by rewrite orb_true_r.
  - by rewrite orb_true_r.
Qed.

(** X7.  An event that is inactive, completed or cancelled stays closed
    whatever requests to the six handlers follow: every later Join, by
    any user, is refused and writes nothing. *)
Theorem closed_event_stays_closed
    (db db' : Db) (eid : ObjectId) (e : Event.t) (now : Z) (uid : ObjectId) :
  events db !! eid = Some e ->
  closed e ->
  rtc request db db' ->
  participateInEvent now uid eid db'
  = (Throw 400 "Cannot participate in this event", db').
Proof.
  intros He Hc Hreq. pose proof (requests_event_kept db db' eid Hreq) as H.
  rewrite He in H. destruct H as (e' & He' & Hk).
  apply (closed_blocks _ _ _ _ e' He'). by apply (closed_kept e).
Qed.

(** The cancelled event after an award to user 1: user 3 cannot join. *)
Lemma closed_event_stays_closed_witness :
  let db1 := snd (awardPointsForEvent 20240301 7%N (Some (IdString.toString 1%N)) (Some 40)
                                      cancelled_db) in
  participateInEvent 20240302 3%N 7%N db1
  = (Throw 400 "Cannot participate in this event", db1).
Proof.
  intros db1.
  apply (closed_event_stays_closed cancelled_db db1 7%N cancelled_event).
  - reflexivity.
  - by left.
  - eapply rtc_l; [apply request_serves, serves_award|]. apply rtc_refl.
Defined.

(** X8.  [deleteEvent] succeeds on every event that exists; it keeps the
    participant list, and from then on, whatever requests follow, every
    Join of the event is refused. *)
Theorem deleteEvent_closes_event
    (now : Z) (eid : ObjectId) (db : Db) (e : Event.t) :
  events db !! eid = Some e ->
  exists db1 e1,
    deleteEvent now eid db = (Ok tt, db1)
    /\ events db1 !! eid = Some e1
    /\ Event.isActive e1 = false
    /\ Event.participants e1 = Event.participants e
    /\ forall db2 now' uid,
         rtc request db1 db2 ->
         participateInEvent now' uid eid db2
         = (Throw 400 "Cannot participate in this event", db2).
Proof.
  intros He. run_delete. rewrite He. cbn [fst snd].
  eexists _, _. split; [reflexivity|]. cbn [events].
  split; [apply lookup_insert_eq|].
  assert (Hact : Event.isActive (Event.preSave now (Event_set_isActive false e)) = false).
  { unfold Event.preSave. by case_match. }
  split; [exact Hact|]. split; [by rewrite preSave_participants|].
  intros db2 now' uid Hreq.
  pose proof (requests_event_kept _ db2 eid Hreq) as H. cbn [events] in H.
  rewrite lookup_insert_eq in H. destruct H as (e' & He' & Hk).
  apply (closed_blocks _ _ _ _ e' He').
  apply (closed_kept _ _ Hk). by left.
Qed.

(** The seed event is deleted; the student cannot join it. *)
Lemma deleteEvent_closes_event_witness :
  participateInEvent 20240302 1%N 7%N (snd (deleteEvent 20240301 7%N seed_db))
  = (Throw 400 "Cannot participate in this event", snd (deleteEvent 20240301 7%N seed_db)).
Proof.
  destruct (deleteEvent_closes_event 20240301 7%N seed_db seed_event eq_refl)
    as (db1 & e1 & Hrun & _ & _ & _ & Hclosed).
  rewrite Hrun. cbn [snd]. apply Hclosed. apply rtc_refl.
Defined.

(** X9.  [canParticipate] does not look at the date: a Join of an
    upcoming event whose date has passed succeeds, and the save of that
    very Join completes the event, so that every later Join is refused. *)
Theorem join_on_past_event_closes_it
    (now : Z) (uid eid : ObjectId) (db : Db) (e : Event.t) (u : User.t) :
  events db !! eid = Some e ->
  users db !! uid = Some u ->
  Event.canParticipate e uid = true ->
  Event.status e = upcoming ->
  Event.date e <= now ->
  exists db1 e1,
    participateInEvent now uid eid db = (Ok (Event.points e), db1)
    /\ events db1 !! eid = Some e1
    /\ Event.status e1 = completed
    /\ Event.isParticipating e1 uid = true
    /\ forall db2 now' uid',
         rtc request db1 db2 ->
         participateInEvent now' uid' eid db2
         = (Throw 400 "Cannot participate in this event", db2).
Proof.
  intros He Hu Hcan Hst Hdate.
  rewrite (participateInEvent_run now uid eid db e u He Hu Hcan).
  eexists _, _. split; [reflexivity|]. cbn [events].
  split; [apply lookup_insert_eq|].
  assert (Hdone : Event.status (joined_event now uid e) = completed).
  { unfold joined_event, Event.preSave. cbn [Event.status Event.date Event.set_participants].
    rewrite Hst. rewrite bool_decide_eq_true_2 by done.
    apply Z.leb_le in Hdate. by rewrite Hdate. }
  split; [exact Hdone|].
  split; [unfold joined_event; rewrite isParticipating_preSave; apply isParticipating_pushed|].
  intros db2 now' uid' Hreq.
  pose proof (requests_event_kept _ db2 eid Hreq) as H. cbn [events] in H.
  rewrite lookup_insert_eq in H. destruct H as (e' & He' & Hk).
  apply (closed_blocks _ _ _ _ e' He').
  apply (closed_kept _ _ Hk). right. by left.
Qed.

(** The student joins the seed event the day after it was held; user 3
    comes too late. *)
Lemma join_on_past_event_closes_it_witness :
  exists db1,
    participateInEvent 20240321 1%N 7%N held_db = (Ok 150, db1)
    /\ participateInEvent 20240321 3%N 7%N db1
       = (Throw 400 "Cannot participate in this event", db1).
Proof.
  destruct (join_on_past_event_closes_it 20240321 1%N 7%N held_db held_event seed_student)
    as (db1 & e1 & Hrun & _ & _ & _ & Hclosed);
    [reflexivity | reflexivity | reflexivity | reflexivity | vm_compute; discriminate |].
  exists db1. split; [exact Hrun|]. apply Hclosed. apply rtc_refl.
Defined.

(** ** What Leave reads *)

(** X10.  Leave reads nothing of the event but its participant list:
    with the same participants, whatever the event's [isActive],
    [status], [points], [date] and [maxParticipants], the response and
    the user collection a Leave leaves are the same, in whatever spelling
    the event id is sent.  So a participant can leave a deleted, completed
    or cancelled event. *)
Theorem leave_reads_only_participants
    (now : Z) (uid eid : ObjectId) (c : bool) (db : Db) (e e2 : Event.t) :
  events db !! eid = Some e ->
  Event.participants e2 = Event.participants e ->
  let db2 := mkDb (users db) (<[eid := e2]> (events db)) (achievements db) in
  fst (removeParticipation now uid (IdString.mk eid c) db2)
  = fst (removeParticipation now uid (IdString.mk eid c) db)
  /\ users (snd (removeParticipation now uid (IdString.mk eid c) db2))
     = users (snd (removeParticipation now uid (IdString.mk eid c) db)).
Proof.
  intros He Hps db2. subst db2. run_handler. rewrite He, lookup_insert_eq, Hps.
  destruct (findIndex _ _) as [i|]; [|done].
  destruct (Event.participants e !! i) as [p|]; [|done].
  cbn [users]. destruct (users db !! uid) as [u|]; done.
Qed.

(** User 2 leaves the cancelled, inactive event as if it were open. *)
Lemma leave_reads_only_participants_witness :
  fst (removeParticipation 20240302 2%N (IdString.toString 7%N) full_db) = Ok 50
  /\ fst (removeParticipation 20240302 2%N (IdString.toString 7%N)
            (mkDb (users full_db) (<[7%N := cancelled_event]> (events full_db))
                  (achievements full_db))) = Ok 50.
Proof.
  split; [reflexivity|].
  destruct (leave_reads_only_participants 20240302 2%N 7%N true full_db full_event
              cancelled_event eq_refl eq_refl) as [Hresp _].
  unfold IdString.toString. rewrite Hresp. reflexivity.
Defined.
(** ** The soft delete of an achievement *)

Lemma deleteAchievement_Ok aid db db1 :
  deleteAchievement aid db = (Ok tt, db1) ->
  exists a,
    In a (achievements db) /\ Achievement._id a = aid
    /\ Achievement_preSave a = None
    /\ db1 = mkDb (users db) (events db)
                  (map (fun x => if N.eqb (Achievement._id x) aid
                                 then Achievement_set_isActive false a else x)
                       (achievements db)).
Proof.
  run_delete. destruct (List.find _ _) as [a|] eqn:Hfind; cbn [fst snd]; [|discriminate].
  apply List.find_some in Hfind as [Hin Hid%N.eqb_eq].
  assert (Hpre : Achievement_preSave (Achievement_set_isActive false a)
                 = Achievement_preSave a) by reflexivity.
  rewrite Hpre. destruct (Achievement_preSave a); [discriminate|].
  cbn [Achievement._id Achievement_set_isActive]. rewrite Hid.
  intros [= <-]. by exists a.
Qed.

Lemma deleteAchievement_retires aid db db1 :
  deleteAchievement aid db = (Ok tt, db1) -> retired aid db1.
Proof.
  intros (a & _ & _ & _ & ->)%deleteAchievement_Ok x Hx Hid. cbn [achievements] in Hx.
  apply in_map_iff in Hx as (y & Hy & _). destruct (N.eqb (Achievement._id y) aid) eqn:He.
  - by subst x.
  - subst x. apply N.eqb_neq in He. contradiction.
Qed.

Lemma request_retired aid db db' : request db db' -> retired aid db -> retired aid db'.
Proof.
  intros [db0 db0' Hs|now eid db0|aid' db0] Hret.
  - unfold retired. by rewrite (serves_achievements _ _ Hs).
  - unfold retired. destruct (deleteEvent_shape now eid db0) as (_ & _ & <-). exact Hret.
  - destruct (deleteAchievement aid' db0) as [[[]|c m] db1] eqn:Hrun; cbn [snd].
    + apply deleteAchievement_Ok in Hrun as (a & _ & _ & _ & ->).
      intros x Hx Hid. cbn [achievements] in Hx.
      apply in_map_iff in Hx as (y & Hy & Hin).
      destruct (N.eqb (Achievement._id y) aid'); [by subst x|].
      subst x. by apply Hret.
    + revert Hrun. run_delete. destruct (List.find _ _) as [a|]; cbn [fst snd].
      * destruct (Achievement_preSave _); [|discriminate]. by intros [= _ _ <-].
      * by intros [= _ _ <-].
Qed.

Lemma active_reported (d : Db) (newly : list Achievement.t) :
  Forall (fun a => In a (List.filter Achievement.isActive (achievements d))) newly ->
  forall x, In x (map Achievement._id newly) ->
            exists a, In a (achievements d) /\ Achievement.isActive a = true
                      /\ Achievement._id a = x.
Proof.
  intros Hall x (a & <- & Ha)%in_map_iff. rewrite Forall_forall in Hall.
  rewrite <- list_elem_of_In in Ha. apply Hall in Ha.
  apply List.filter_In in Ha as [H1 H2]. by exists a.
Qed.

(** Whatever a sweep awards is an active achievement of the catalogue. *)
Lemma sweep_reports_active uid db ids db' :
  sweep uid db ids db' ->
  forall x, In x ids ->
            exists a, In a (achievements db) /\ Achievement.isActive a = true
                      /\ Achievement._id a = x.
Proof.
  intros [now db0 new db0' Hrun|now eid c pts db0 resp db0' Hrun].
  - destruct (users db0 !! uid) as [u|] eqn:Hu.
    + destruct (checkUserAchievements_run now uid db0 u Hu) as (newly & Hin & Heq).
      rewrite Heq in Hrun. injection Hrun as <- _. rewrite map_map. cbn [fst].
      by apply active_reported.
    + revert Hrun. run_handler. rewrite Hu. case_match; [|discriminate].
      intros [= <- _]. simpl. tauto.
  - destruct (awardPointsForEvent_Ok _ _ _ _ _ _ _ Hrun)
      as (e & uid0 & c0 & p & u & He & [= <- <-] & -> & Hp & Hu & Hpart).
    destruct (awardPointsForEvent_run now eid uid c p db0 e u He Hu Hp Hpart)
      as (newly & Hin & Heq).
    rewrite Heq in Hrun. injection Hrun as <- _. cbn [newAchievements].
    by apply active_reported.
Qed.

Lemma requests_retired aid db db' : rtc request db db' -> retired aid db -> retired aid db'.
Proof.
  induction 1 as [|db db1 db' Hstep _ IH]; [done|].
  intros Hret. apply IH. by apply (request_retired aid db).
Qed.

(** X11.  Once [deleteAchievement] has succeeded for an id, no sweep, by
    the direct check or by the administrative award, awards that id
    again, whatever requests to the six handlers come in between. *)
Theorem deleted_achievement_never_awarded
    (aid : ObjectId) (db db1 db2 db3 : Db) (uid : ObjectId) (ids : list ObjectId) :
  deleteAchievement aid db = (Ok tt, db1) ->
  rtc request db1 db2 ->
  sweep uid db2 ids db3 ->
  ~ In aid ids.
Proof.
  intros Hdel Hreq Hsweep Hin.
  destruct (sweep_reports_active _ _ _ _ Hsweep aid Hin) as (a & Ha & Hact & Hid).
  assert (Hret : retired aid db2)
    by (apply (requests_retired aid db1); [done | by apply (deleteAchievement_retires aid db)]).
  rewrite (Hret a Ha Hid) in Hact. discriminate.
Qed.

(** "Academic Excellence" is deleted; the check of the student, who
    qualifies for it, awards nothing. *)
Lemma deleted_achievement_never_awarded_witness :
  let db1 := snd (deleteAchievement 11%N catalogue_db) in
  fst (checkUserAchievements 20240302 1%N db1) = Ok [] /\ ~ In 11%N [].
Proof.
  intros db1. split; [vm_compute; reflexivity|].
  apply (deleted_achievement_never_awarded 11%N catalogue_db db1 db1
           (snd (checkUserAchievements 20240302 1%N db1)) 1%N []).
  - vm_compute. reflexivity.
  - apply rtc_refl.
  - apply (sweep_check 1%N 20240302 db1 []). vm_compute. reflexivity.
Defined.

(** X12.  [deleteAchievement] cannot retire an achievement whose stored
    requirement the pre-save hook refuses (a [points] threshold below 0,
    an [events] threshold below 1): the save is refused and the
    database, with the achievement still in it, is left as it was. *)
Theorem deleteAchievement_refused_by_hook (aid : ObjectId) (db : Db) (a : Achievement.t) :
  List.find (fun x => N.eqb (Achievement._id x) aid) (achievements db) = Some a ->
  refused_requirement (Achievement.requirements a) ->
  exists code msg, deleteAchievement aid db = (Throw code msg, db).
Proof.
  intros Hfind Href. run_delete. rewrite Hfind. cbn [fst snd].
  unfold Achievement_preSave. cbn [Achievement.requirements Achievement_set_isActive].
  destruct Href as [[-> Hv]|[-> Hv]].
  - apply Z.ltb_lt in Hv. rewrite Hv. by eexists _, _.
  - apply Z.ltb_lt in Hv. rewrite Hv. by eexists _, _.
Qed.

(** The achievement with [{ type: 'events', value: 0 }] is awarded to a
    new user and cannot be deleted. *)
Lemma deleteAchievement_refused_by_hook_witness :
  (exists code msg, deleteAchievement 12%N welcome_db = (Throw code msg, welcome_db))
  /\ fst (checkUserAchievements 20240301 1%N welcome_db) = Ok [(welcome, 10)].
Proof.
  split; [|reflexivity].
  apply (deleteAchievement_refused_by_hook 12%N welcome_db welcome); [reflexivity|].
  right. split; [reflexivity|]. vm_compute. reflexivity.
Defined.
(** ** Levels *)


(** X14.  A Leave that takes back more points than the user has leaves
    [totalPoints] below zero and with it a level of 0 or less, in whatever
    spelling the event id is sent. *)
Theorem leave_below_zero_level
    (now : Z) (uid eid : ObjectId) (c : bool) (db : Db) (r : Z) (db' : Db) (u : User.t) :
  removeParticipation now uid (IdString.mk eid c) db = (Ok r, db') ->
  users db !! uid = Some u ->
  r > User.totalPoints u ->
  exists u',
    users db' !! uid = Some u'
    /\ User.totalPoints u' = User.totalPoints u - r
    /\ User.totalPoints u' < 0
    /\ User.level u' <= 0.
Proof.
  intros Hrun Hu Hr.
  destruct (removeParticipation_Ok _ _ _ _ _ _ _ Hrun) as (e & u0 & i & p & He & Hu0 & Hi & Hp).
  rewrite Hu in Hu0. injection Hu0 as <-.
  rewrite (removeParticipation_found _ _ _ _ _ e u i p He Hu Hi Hp) in Hrun.
  injection Hrun as <- <-. eexists. cbn [users]. split; [apply lookup_insert_eq|].
  cbn [debited_user User.totalPoints User.level]. split; [done|]. split; [lia|].
  pose proof (Z.div_mod (User.totalPoints u - Participant.pointsEarned p) 200 ltac:(lia)).
  pose proof (Z.mod_pos_bound (User.totalPoints u - Participant.pointsEarned p) 200 ltac:(lia)).
  lia.
Qed.

(** The user with 30 points leaves the event joined for 100: level 0. *)
Lemma leave_below_zero_level_witness :
  exists u',
    users (snd (removeParticipation 20240302 1%N (IdString.toString 7%N) devalued_db)) !! 1%N
    = Some u'
    /\ User.totalPoints u' < 0 /\ User.level u' <= 0.
Proof.
  destruct (leave_below_zero_level 20240302 1%N 7%N true devalued_db 100
              (snd (removeParticipation 20240302 1%N (IdString.toString 7%N) devalued_db))
              (User.mk 30 1 [] [Participation.mk 7%N 100 20240301]))
    as (u' & Hu' & _ & Htp & Hlv); [vm_compute; reflexivity | reflexivity | reflexivity |].
  by exists u'.
Defined.

(** ** Round trips on the event *)

(** X15.  A successful Join followed by the Leave of the same user gives
    the event its participant list back, as it gives back the event's
    points, capacity and active flag; the points the Leave reports are
    those the Join reported.  This is so in whatever spelling the Leave
    carries the event id. *)
Theorem join_then_leave_event
    (now now' : Z) (uid eid : ObjectId) (c : bool) (db : Db) (r : Z) (db1 : Db)
    (e : Event.t) :
  participateInEvent now uid eid db = (Ok r, db1) ->
  events db !! eid = Some e ->
  exists db2 e2,
    removeParticipation now' uid (IdString.mk eid c) db1 = (Ok r, db2)
    /\ events db2 !! eid = Some e2
    /\ Event.participants e2 = Event.participants e
    /\ Event.points e2 = Event.points e
    /\ Event.maxParticipants e2 = Event.maxParticipants e
    /\ Event.isActive e2 = Event.isActive e.
Proof.
  intros Hjoin He.
  destruct (join_then_leave_run now now' _ _ c _ _ _ Hjoin) as (e0 & u & He0 & Hu & Hrun).
  rewrite He in He0. injection He0 as <-.
  apply participateInEvent_Ok in Hjoin as (e0 & u0 & He0 & _ & _ & -> & _).
  rewrite He in He0. injection He0 as <-.
  eexists _, _. split; [exact Hrun|]. cbn [events]. split; [apply lookup_insert_eq|].
  unfold left_event, joined_event.
  split.
  { rewrite preSave_participants. cbn [Event.participants Event.set_participants].
    rewrite preSave_participants. cbn [Event.participants Event.set_participants].
    apply delete_pushed. }
  split.
  { rewrite preSave_points. cbn [Event.points Event.set_participants].
    by rewrite preSave_points. }
  unfold Event.preSave. split; repeat case_match; reflexivity.
Qed.

(** User 1 takes the free place of the two-place event and gives it up. *)
Lemma join_then_leave_event_witness :
  exists db2 e2,
    removeParticipation 20240303 1%N (IdString.toString 7%N)
      (snd (participateInEvent 20240302 1%N 7%N roomy_db))
    = (Ok 50, db2)
    /\ events db2 !! 7%N = Some e2
    /\ Event.participants e2 = [Participant.mk 2%N 50 20240301].
Proof.
  destruct (join_then_leave_event 20240302 20240303 1%N 7%N true roomy_db 50
              (snd (participateInEvent 20240302 1%N 7%N roomy_db)) roomy_event)
    as (db2 & e2 & Hrun & He2 & Hps & _); [vm_compute; reflexivity | reflexivity |].
  by exists db2, e2.
Defined.

(** X16.  A user can leave an event an administrator awarded points for.
    After an award that named the user by the printed id, the Leave takes
    back exactly the awarded points, so that, the point values being safe
    integers, [totalPoints] is what it was before the award; the
    achievements the award's sweep appended stay with the user; the
    participation record of the award goes when the Leave carries the
    event id as it is printed, and stays when it is spelled otherwise. *)
Theorem award_then_leave
    (now now' : Z) (uid eid : ObjectId) (c : bool) (pts : option Z) (db : Db)
    (resp : AwardResponse) (db1 : Db) (u : User.t) :
  awardPointsForEvent now eid (Some (IdString.toString uid)) pts db = (Ok resp, db1) ->
  users db !! uid = Some u ->
  isSafeInteger (User.totalPoints u) ->
  isSafeInteger (pointsAwarded resp) ->
  isSafeInteger (User.totalPoints u + pointsAwarded resp) ->
  exists db2 u2,
    removeParticipation now' uid (IdString.mk eid c) db1 = (Ok (pointsAwarded resp), db2)
    /\ users db2 !! uid = Some u2
    /\ User.totalPoints u2 = User.totalPoints u
    /\ User.achievements u2
       = User.achievements u ++ achievement_entries now (newAchievements resp)
    /\ (c = true ->
        User.eventsParticipated u2
        = without_event (IdString.toString eid) (User.eventsParticipated u))
    /\ (c = false ->
        User.eventsParticipated u2
        = User.eventsParticipated u ++ [Participation.mk eid (pointsAwarded resp) now]).
Proof.
  unfold IdString.toString. intros Hrun Hu _ _ _.
  destruct (awardPointsForEvent_Ok _ _ _ _ _ _ _ Hrun)
    as (e & uid0 & c0 & p & u0 & He & [= <- <-] & -> & Hp & Hu0 & Hpart).
  rewrite Hu in Hu0. injection Hu0 as <-. specialize (Hpart eq_refl).
  destruct (awardPointsForEvent_run now eid uid true p db e u He Hu Hp (fun _ => Hpart))
    as (newly & _ & Heq).
  rewrite Heq in Hrun. injection Hrun as <- <-. cbn [pointsAwarded newAchievements].
  rewrite (removeParticipation_found now' uid eid c _ (enrolled_event now uid p e)
             (User.set_achievements (User.achievements u ++ achievement_entries now newly)
                                    (credited_user now eid p u))
             (length (Event.participants e)) (Participant.mk uid p now)).
  - eexists _, _. split; [reflexivity|]. cbn [users]. split; [apply lookup_insert_eq|].
    cbn [debited_user credited_user User.set_achievements User.totalPoints
         User.achievements User.eventsParticipated Participant.pointsEarned].
    split; [lia|]. split; [done|]. split.
    + intros ->. apply without_event_pushed.
    + intros ->. apply without_event_other_spelling.
  - cbn [events]. apply lookup_insert_eq.
  - cbn [users]. apply lookup_insert_eq.
  - unfold enrolled_event. rewrite preSave_participants. simpl.
    by apply findIndex_pushed; [exact Hpart | apply N.eqb_refl].
  - unfold enrolled_event. rewrite preSave_participants. simpl. apply lookup_pushed.
Qed.

(** User 1 is awarded 100 points, earns "Academic Excellence" at 2050,
    leaves the event and is back at 1950 with the achievement. *)
Lemma award_then_leave_witness :
  exists db2 u2,
    removeParticipation 20240302 1%N (IdString.toString 7%N)
      (snd (awardPointsForEvent 20240301 7%N (Some (IdString.toString 1%N)) (Some 100)
                                award_db))
    = (Ok 100, db2)
    /\ users db2 !! 1%N = Some u2
    /\ User.totalPoints u2 = 1950
    /\ User.achievements u2 = [UserAchievement.mk 11%N 20240301 500]
    /\ User.eventsParticipated u2 = [].
Proof.
  destruct (award_then_leave 20240301 20240302 1%N 7%N true (Some 100) award_db
              (mkAwardResponse 100 11 [academic_excellence])
              (snd (awardPointsForEvent 20240301 7%N (Some (IdString.toString 1%N))
                                        (Some 100) award_db))
              (User.mk 1950 10 [] []))
    as (db2 & u2 & Hrun & Hu2 & Htp & Hach & Hlist & _);
    [vm_compute; reflexivity | reflexivity | unfold isSafeInteger; simpl; lia..|].
  exists db2, u2. repeat split; [exact Hrun | exact Hu2 | exact Htp | exact Hach |].
  by apply Hlist.
Defined.

(** ** The pre-save hook and the evaluator *)

(** X17.  An achievement the pre-save hook accepts is never earned on a
    bare record: not with an [events] requirement by a user without
    participation records, and not with a [points] requirement by a user
    whose [totalPoints] is negative. *)
Theorem accepted_requirement_needs_merit (a : Achievement.t) (u : User.t) :
  Achievement_preSave a = None ->
  (Requirements.type (Achievement.requirements a) = Requirements.events ->
   User.eventsParticipated u = [] ->
   Achievement.checkEligibility a u = false)
  /\ (Requirements.type (Achievement.requirements a) = Requirements.points ->
      User.totalPoints u < 0 ->
      Achievement.checkEligibility a u = false).
Proof.
  unfold Achievement_preSave, Achievement.checkEligibility. intros Hpre.
  split; intros Hty Hu; rewrite Hty in *; destruct (Achievement.isActive a); simpl; try done.
  - rewrite Hu. simpl. destruct (_ <? 1) eqn:Hv; [discriminate|].
    apply Z.ltb_ge in Hv. apply Z.leb_gt. lia.
  - destruct (_ <? 0) eqn:Hv; [discriminate|].
    apply Z.ltb_ge in Hv. apply Z.leb_gt. lia.
Qed.

(** "First Steps" is not for a new user. *)
Lemma accepted_requirement_needs_merit_witness :
  Achievement.checkEligibility first_steps User.fresh = false.
Proof.
  apply (proj1 (accepted_requirement_needs_merit first_steps User.fresh eq_refl));
    reflexivity.
Defined.
(** ** Repeated checks *)

Lemma checkUserAchievements_loop_quiet now (l : list Achievement.t) u new :
  (forall a, In a l -> awardable u a = false) ->
  fold_left (checkUserAchievements_loop now) l (u, new) = (u, new).
Proof.
  induction l as [|a l IH]; intros Hq; cbn [fold_left]; [done|].
  assert (Hstep : checkUserAchievements_loop now (u, new) a = (u, new)).
  { unfold checkUserAchievements_loop. fold (awardable u a). rewrite Hq; [done|by left]. }
  rewrite Hstep. apply IH. intros b Hb. apply Hq. by right.
Qed.

Lemma checkUserAchievements_loop_silent now (l : list Achievement.t) u new :
  snd (fold_left (checkUserAchievements_loop now) l (u, new)) = new ->
  forall a, In a l -> awardable u a = false.
Proof.
  induction l as [|a l IH]; cbn [fold_left]; [by intros _ a []|].
  destruct (awardable u a) eqn:Haw.
  - unfold awardable in Haw. apply andb_true_iff in Haw as [Hh%negb_true_iff He].
    rewrite (checkUserAchievements_loop_award now u new a Hh He).
    destruct (checkUserAchievements_loop_effect now l (awarded_user now a u)
                (new ++ [(a, Achievement.points a)])) as (newly & -> & _).
    cbn [snd]. intros Heq. apply (f_equal length) in Heq.
    rewrite !length_app in Heq. simpl in Heq. lia.
  - assert (Hstep : checkUserAchievements_loop now (u, new) a = (u, new)).
    { unfold checkUserAchievements_loop. fold (awardable u a). by rewrite Haw. }
    rewrite Hstep. intros Heq b [<-|Hb]; [done|]. by apply IH.
Qed.

Lemma checkUserAchievements_quiet now uid db u :
  users db !! uid = Some u ->
  (forall a, In a (List.filter Achievement.isActive (achievements db)) -> awardable u a = false) ->
  checkUserAchievements now uid db = (Ok [], db).
Proof.
  intros Hu Hq. run_handler. rewrite Hu.
  by rewrite (checkUserAchievements_loop_quiet now _ u [] Hq).
Qed.

Lemma checks_quiet nows uid db u :
  users db !! uid = Some u ->
  (forall a, In a (List.filter Achievement.isActive (achievements db)) -> awardable u a = false) ->
  checks nows uid db = db.
Proof.
  intros Hu Hq. induction nows as [|now nows IH]; [done|].
  unfold checks in *. cbn [fold_left].
  by rewrite (checkUserAchievements_quiet now uid db u Hu Hq).
Qed.

Lemma hasAchievement_more u u' more a :
  User.achievements u' = User.achievements u ++ more ->
  hasAchievement u a = true -> hasAchievement u' a = true.
Proof.
  unfold hasAchievement. intros -> H. rewrite existsb_app, H. done.
Qed.

Lemma filter_length_lt {A} (f g : A -> bool) (l : list A) (x : A) :
  (forall a, g a = true -> f a = true) ->
  In x l -> f x = true -> g x = false ->
  (length (List.filter g l) < length (List.filter f l))%nat.
Proof.
  intros Hsub. 
  assert (Hle : forall k, (length (List.filter g k) <= length (List.filter f k))%nat).
  { induction k as [|y k IH]; simpl; [done|].
    destruct (g y) eqn:Hg; [rewrite (Hsub y Hg); simpl; lia|].
    destruct (f y); simpl; lia. }
  induction l as [|y l IH]; simpl; [done|]. intros [->|Hin] Hf Hg.
  - rewrite Hf, Hg. simpl. specialize (Hle l). lia.
  - specialize (IH Hin Hf Hg). destruct (g y) eqn:Hgy; [rewrite (Hsub y Hgy); simpl; lia|].
    destruct (f y); simpl; lia.
Qed.

Lemma filter_length_at_most {A} (f : A -> bool) (l : list A) :
  (length (List.filter f l) <= length l)%nat.
Proof. induction l as [|y l IH]; simpl; [done|]. destruct (f y); simpl; lia. Qed.

Lemma checkUserAchievements_silent now uid db db' u :
  checkUserAchievements now uid db = (Ok [], db') ->
  users db !! uid = Some u ->
  forall a, In a (List.filter Achievement.isActive (achievements db)) -> awardable u a = false.
Proof.
  run_handler. intros Hrun Hu. rewrite Hu in Hrun.
  apply (checkUserAchievements_loop_silent now _ u []).
  destruct (fold_left _ _ _) as [u1 new]. cbn [fst snd] in *.
  destruct new; [done|discriminate].
Qed.

(** A check that awards something leaves fewer achievements pending. *)
Lemma pending_decreases now uid db db1 u a newly :
  users db !! uid = Some u ->
  checkUserAchievements now uid db
  = (Ok (map (fun a => (a, Achievement.points a)) (a :: newly)), db1) ->
  In a (List.filter Achievement.isActive (achievements db)) ->
  (pending (checked_user now (a :: newly) u) (List.filter Achievement.isActive (achievements db))
   < pending u (List.filter Achievement.isActive (achievements db)))%nat.
Proof.
  intros Hu Hrun Hin.
  destruct (sweep_fresh uid db _ db1 u (sweep_check uid now db _ db1 Hrun) Hu)
    as (u1 & _ & _ & _ & Hnew).
  assert (Hha : hasAchievement u a = false).
  { apply hasAchievement_false. apply Hnew. simpl. by left. }
  assert (Hha' : hasAchievement (checked_user now (a :: newly) u) a = true).
  { unfold hasAchievement, checked_user. cbn [User.achievements achievement_entries map].
    rewrite existsb_app. simpl. rewrite N.eqb_refl. by rewrite orb_true_r. }
  unfold pending. apply (filter_length_lt _ _ _ a); [|done|by rewrite Hha|by rewrite Hha'].
  intros b Hb. apply negb_true_iff in Hb. apply negb_true_iff.
  destruct (hasAchievement u b) eqn:Hub; [|done].
  assert (Hmore : hasAchievement (checked_user now (a :: newly) u) b = true)
    by (by apply (hasAchievement_more u _ (achievement_entries now (a :: newly)) b)).
  congruence.
Qed.

Lemma checks_settle nows uid :
  forall db u,
    users db !! uid = Some u ->
    (pending u (List.filter Achievement.isActive (achievements db)) <= length nows)%nat ->
    exists u',
      users (checks nows uid db) !! uid = Some u'
      /\ achievements (checks nows uid db) = achievements db
      /\ forall a, In a (List.filter Achievement.isActive (achievements db)) ->
                   awardable u' a = false.
Proof.
  induction nows as [|now nows IH]; intros db u Hu Hp.
  - exists u. split; [done|]. split; [done|]. intros a Ha.
    unfold awardable. destruct (hasAchievement u a) eqn:Hh; [done|].
    exfalso. unfold pending in Hp. simpl in Hp.
    assert (Hin : In a (List.filter (fun a => negb (hasAchievement u a))
                          (List.filter Achievement.isActive (achievements db))))
      by (apply List.filter_In; by rewrite Hh).
    destruct (List.filter _ _); [done|simpl in Hp; lia].
  - destruct (checkUserAchievements_run now uid db u Hu) as (newly & Hin & Heq).
    unfold checks. cbn [fold_left]. rewrite Heq. cbn [snd].
    destruct newly as [|a newly].
    + pose proof (checkUserAchievements_silent now uid db db u Heq Hu) as Hq.
      fold (checks nows uid db). rewrite (checks_quiet nows uid db u Hu Hq). by exists u.
    + apply Forall_cons in Hin as [Ha _].
      pose proof (pending_decreases now uid db _ u a newly Hu Heq Ha) as Hlt.
      destruct (IH (mkDb (<[uid := checked_user now (a :: newly) u]> (users db))
                         (events db) (achievements db))
                   (checked_user now (a :: newly) u)) as (u' & Hu' & Hcat & Hq).
      * cbn [users]. apply lookup_insert_eq.
      * cbn [achievements]. simpl in Hp. lia.
      * exists u'. done.
Qed.

(** X18.  The direct check comes to rest: after as many checks of a
    user as the catalogue has achievements, the next check awards
    nothing and writes nothing. *)
Theorem checks_come_to_rest (nows : list Z) (uid : ObjectId) (db : Db) (now : Z) :
  is_Some (users db !! uid) ->
  (length (achievements db) <= length nows)%nat ->
  checkUserAchievements now uid (checks nows uid db) = (Ok [], checks nows uid db).
Proof.
  intros [u Hu] Hlen.
  destruct (checks_settle nows uid db u Hu) as (u' & Hu' & Hcat & Hq).
  - unfold pending. etransitivity; [apply filter_length_at_most|].
    etransitivity; [apply filter_length_at_most|]. exact Hlen.
  - apply (checkUserAchievements_quiet now uid _ u' Hu'). by rewrite Hcat.
Qed.

(** With "Academic Excellence" listed before "First Steps" the user with
    1950 points needs two checks; the third finds nothing. *)
Lemma checks_come_to_rest_witness :
  let db0 := mkDb (users running_total_db) ∅ [academic_excellence; first_steps] in
  fst (checkUserAchievements 20240301 1%N db0) = Ok [(first_steps, 50)]
  /\ fst (checkUserAchievements 20240302 1%N (checks [20240301] 1%N db0))
     = Ok [(academic_excellence, 500)]
  /\ fst (checkUserAchievements 20240303 1%N (checks [20240301; 20240302] 1%N db0)) = Ok [].
Proof.
  intros db0. split; [reflexivity|]. split; [reflexivity|].
  rewrite (checks_come_to_rest [20240301; 20240302] 1%N db0 20240303); [reflexivity| |].
  - by exists almost_excellent.
  - simpl. lia.
Defined.
(** ** The participation lists agree *)

Lemma existsb_eqb_In {A} (g : A -> N) (k : N) (l : list A) :
  existsb (fun x => N.eqb (g x) k) l = true <-> In k (map g l).
Proof.
  rewrite existsb_exists, in_map_iff. split.
  - intros (x & Hx & He%N.eqb_eq). by exists x.
  - intros (x & He & Hx). exists x. split; [done|]. by apply N.eqb_eq.
Qed.

Lemma existsb_eqb_not_In {A} (g : A -> N) (k : N) (l : list A) :
  existsb (fun x => N.eqb (g x) k) l = false <-> ~ In k (map g l).
Proof.
  rewrite <- existsb_eqb_In. destruct (existsb _ l); intuition congruence.
Qed.

Lemma NoDup_pushed {A} (g : A -> N) (l : list A) (x : A) :
  NoDup (map g l) -> existsb (fun y => N.eqb (g y) (g x)) l = false ->
  NoDup (map g (l ++ [x])).
Proof.
  intros Hnd Hx%existsb_eqb_not_In. rewrite map_app. simpl.
  apply NoDup_app. split; [done|]. split; [|apply NoDup_singleton].
  intros y Hy [->|[]%elem_of_nil]%elem_of_cons. apply Hx.
  by apply list_elem_of_In.
Qed.

Lemma existsb_pushed_other {A} (g : A -> N) (l : list A) (x : A) (k : N) :
  k <> g x ->
  existsb (fun y => N.eqb (g y) k) (l ++ [x]) = existsb (fun y => N.eqb (g y) k) l.
Proof.
  intros Hk. rewrite existsb_app. simpl.
  assert (He : N.eqb (g x) k = false) by (apply N.eqb_neq; congruence).
  rewrite He. by rewrite !orb_false_r.
Qed.

Lemma existsb_pushed_same {A} (g : A -> N) (l : list A) (x : A) :
  existsb (fun y => N.eqb (g y) (g x)) (l ++ [x]) = true.
Proof. rewrite existsb_app. simpl. rewrite N.eqb_refl. by rewrite orb_true_r. Qed.

(** The list [splice] leaves when it takes out the record [findIndex]
    found for a user who is in the list once. *)
Lemma delete_found (ps : list Participant.t) (uid : ObjectId) (i : nat) :
  findIndex (isUser uid) ps = Some i ->
  NoDup (map Participant.userId ps) ->
  NoDup (map Participant.userId (delete i ps))
  /\ (forall k, k <> uid ->
                existsb (fun p => N.eqb (Participant.userId p) k) (delete i ps)
                = existsb (fun p => N.eqb (Participant.userId p) k) ps)
  /\ existsb (fun p => N.eqb (Participant.userId p) uid) (delete i ps) = false.
Proof.
  intros (p & Hp & Hf & _)%findIndex_Some Hnd.
  unfold isUser in Hf. apply N.eqb_eq in Hf.
  rewrite delete_take_drop. rewrite <- (take_drop_middle ps i p Hp) in Hnd.
  rewrite map_app in Hnd. simpl in Hnd. rewrite Hf in Hnd.
  apply NoDup_app in Hnd as (Hpre & Hdisj & Hpost%NoDup_cons).
  destruct Hpost as [Hnot Hpost].
  assert (Hout : ~ In uid (map Participant.userId (take i ps ++ drop (S i) ps))).
  { rewrite map_app, in_app_iff. intros [H|H]; apply list_elem_of_In in H.
    - apply (Hdisj uid H). by left.
    - by apply Hnot. }
  split; [|split].
  - rewrite map_app. apply NoDup_app. split; [done|]. split; [|done].
    intros x Hx Hx'. apply (Hdisj x Hx). by right.
  - intros k Hk.
    assert (Hsplit : existsb (fun p => N.eqb (Participant.userId p) k) ps
                     = existsb (fun p => N.eqb (Participant.userId p) k)
                               (take i ps ++ p :: drop (S i) ps))
      by (by rewrite take_drop_middle).
    rewrite Hsplit, !existsb_app. simpl.
    assert (He : N.eqb (Participant.userId p) k = false) by (apply N.eqb_neq; congruence).
    by rewrite He.
  - by apply existsb_eqb_not_In.
Qed.

Lemma without_event_records eid (rs : list Participation.t) :
  NoDup (map Participation.eventId rs) ->
  NoDup (map Participation.eventId (without_event (IdString.toString eid) rs))
  /\ (forall k, k <> eid ->
                existsb (fun r => N.eqb (Participation.eventId r) k)
                        (without_event (IdString.toString eid) rs)
                = existsb (fun r => N.eqb (Participation.eventId r) k) rs)
  /\ existsb (fun r => N.eqb (Participation.eventId r) eid)
             (without_event (IdString.toString eid) rs) = false.
Proof.
  unfold without_event, IdString.eqb_toString, IdString.toString.
  cbn [IdString.cast IdString.canonical andb].
  intros Hnd. split; [|split].
  - induction rs as [|r rs IH]; simpl; [constructor|].
    simpl in Hnd. apply NoDup_cons in Hnd as [Hr Hnd].
    destruct (N.eqb (Participation.eventId r) eid); simpl; [by apply IH|].
    apply NoDup_cons. split; [|by apply IH].
    intros Hin%list_elem_of_In%in_map_iff. destruct Hin as (x & Hx & Hin).
    apply List.filter_In in Hin as [Hin _]. apply Hr. apply list_elem_of_In, in_map_iff.
    by exists x.
  - intros k Hk. induction rs as [|r rs IH]; simpl; [done|].
    simpl in Hnd. apply NoDup_cons in Hnd as [_ Hnd].
    destruct (N.eqb (Participation.eventId r) eid) eqn:He; simpl.
    + apply N.eqb_eq in He.
      assert (He' : N.eqb (Participation.eventId r) k = false)
        by (apply N.eqb_neq; congruence).
      rewrite He'. by apply IH.
    + by rewrite IH.
  - apply existsb_eqb_not_In. intros (x & Hx & Hin)%in_map_iff.
    apply List.filter_In in Hin as [_ Hin]. apply negb_true_iff, N.eqb_neq in Hin. done.
Qed.

(** The three parts of [participation_consistent] after a request that
    wrote at most the event [eid] and the user [uid]. *)
Lemma consistent_update (uid eid : ObjectId) (db db' : Db) :
  participation_consistent db ->
  (events db' = events db
   \/ exists e e', events db !! eid = Some e
                   /\ events db' = <[eid := e']> (events db)
                   /\ NoDup (map Participant.userId (Event.participants e'))
                   /\ forall k, k <> uid ->
                                Event.isParticipating e' k = Event.isParticipating e k) ->
  (users db' = users db
   \/ exists u u', users db !! uid = Some u
                   /\ users db' = <[uid := u']> (users db)
                   /\ NoDup (map Participation.eventId (User.eventsParticipated u'))
                   /\ forall k, k <> eid -> hasRecord u' k = hasRecord u k) ->
  (forall u' e', users db' !! uid = Some u' -> events db' !! eid = Some e' ->
                 Event.isParticipating e' uid = hasRecord u' eid) ->
  participation_consistent db'.
Proof.
  intros (Hev & Hus & Hsync) Hevents Husers Hlink. split; [|split].
  - intros k e Hk. destruct Hevents as [Heq|(e0 & e' & He0 & Heq & Hnd & _)];
      rewrite Heq in Hk; [by apply (Hev k)|].
    destruct (decide (eid = k)) as [->|Hne].
    + rewrite lookup_insert_eq in Hk. by injection Hk as <-.
    + rewrite lookup_insert_ne in Hk by done. by apply (Hev k).
  - intros k u Hk. destruct Husers as [Heq|(u0 & u' & Hu0 & Heq & Hnd & _)];
      rewrite Heq in Hk; [by apply (Hus k)|].
    destruct (decide (uid = k)) as [->|Hne].
    + rewrite lookup_insert_eq in Hk. by injection Hk as <-.
    + rewrite lookup_insert_ne in Hk by done. by apply (Hus k).
  - intros k1 u1 k2 e1 Hu1 He1.
    destruct (decide (k1 = uid)) as [->|Hk1], (decide (k2 = eid)) as [->|Hk2].
    + by apply Hlink.
    + assert (He1' : events db !! k2 = Some e1).
      { destruct Hevents as [Heq|(e0 & e' & _ & Heq & _)]; rewrite Heq in He1; [done|].
        by rewrite lookup_insert_ne in He1. }
      destruct Husers as [Heq|(u0 & u' & Hu0 & Heq & _ & Hrec)]; rewrite Heq in Hu1.
      * by apply (Hsync uid u1 k2 e1).
      * rewrite lookup_insert_eq in Hu1. injection Hu1 as <-.
        rewrite (Hrec k2 Hk2). by apply (Hsync uid u0 k2 e1).
    + assert (Hu1' : users db !! k1 = Some u1).
      { destruct Husers as [Heq|(u0 & u' & _ & Heq & _)]; rewrite Heq in Hu1; [done|].
        by rewrite lookup_insert_ne in Hu1. }
      destruct Hevents as [Heq|(e0 & e' & He0 & Heq & _ & Hpart)]; rewrite Heq in He1.
      * by apply (Hsync k1 u1 eid e1).
      * rewrite lookup_insert_eq in He1. injection He1 as <-.
        rewrite (Hpart k1 Hk1). by apply (Hsync k1 u1 eid e0).
    + assert (He1' : events db !! k2 = Some e1).
      { destruct Hevents as [Heq|(e0 & e' & _ & Heq & _)]; rewrite Heq in He1; [done|].
        by rewrite lookup_insert_ne in He1. }
      assert (Hu1' : users db !! k1 = Some u1).
      { destruct Husers as [Heq|(u0 & u' & _ & Heq & _)]; rewrite Heq in Hu1; [done|].
        by rewrite lookup_insert_ne in Hu1. }
      by apply (Hsync k1 u1 k2 e1).
Qed.

Lemma consistent_same (db db' : Db) :
  users db' = users db -> events db' = events db ->
  participation_consistent db -> participation_consistent db'.
Proof.
  intros Hu He (H1 & H2 & H3). unfold participation_consistent.
  rewrite Hu, He. by repeat split.
Qed.

(** A participant record pushed for a user the event does not list. *)
Lemma pushed_participant now (e : Event.t) uid pts t :
  NoDup (map Participant.userId (Event.participants e)) ->
  Event.isParticipating e uid = false ->
  let e' := Event.preSave now
              (Event.set_participants
                 (Event.participants e ++ [Participant.mk uid pts t]) e) in
  NoDup (map Participant.userId (Event.participants e'))
  /\ (forall k, k <> uid -> Event.isParticipating e' k = Event.isParticipating e k)
  /\ Event.isParticipating e' uid = true.
Proof.
  intros Hnd Hp e'. subst e'. unfold Event.isParticipating in *.
  rewrite preSave_participants. cbn [Event.participants Event.set_participants].
  split; [|split].
  - by apply (NoDup_pushed Participant.userId).
  - intros k Hk. by apply (existsb_pushed_other Participant.userId).
  - apply (existsb_pushed_same Participant.userId _ (Participant.mk uid pts t)).
Qed.

(** A participation record pushed for an event the user holds no record of. *)
Lemma pushed_record (u : User.t) eid pts t :
  NoDup (map Participation.eventId (User.eventsParticipated u)) ->
  hasRecord u eid = false ->
  let l := User.eventsParticipated u ++ [Participation.mk eid pts t] in
  NoDup (map Participation.eventId l)
  /\ (forall k, k <> eid ->
                existsb (fun r => N.eqb (Participation.eventId r) k) l = hasRecord u k)
  /\ existsb (fun r => N.eqb (Participation.eventId r) eid) l = true.
Proof.
  intros Hnd Hr l. subst l. unfold hasRecord in *. split; [|split].
  - by apply (NoDup_pushed Participation.eventId).
  - intros k Hk. by apply (existsb_pushed_other Participation.eventId).
  - apply (existsb_pushed_same Participation.eventId _ (Participation.mk eid pts t)).
Qed.

Lemma participateInEvent_consistent now uid eid db :
  participation_consistent db ->
  participation_consistent (snd (participateInEvent now uid eid db)).
Proof.
  intros Hc. destruct (events db !! eid) as [e|] eqn:He;
    [|run_handler; by rewrite He].
  destruct (Event.canParticipate e uid) eqn:Hcan;
    [|by rewrite (participateInEvent_blocked now uid eid db e He Hcan)].
  pose proof Hcan as (_ & _ & _ & Hp & _)%canParticipate_true.
  assert (Hnd : NoDup (map Participant.userId (Event.participants e)))
    by (by apply (proj1 Hc eid)).
  destruct (pushed_participant now e uid (Event.points e) now Hnd Hp) as (Hnd' & Hoth & Hin).
  destruct (users db !! uid) as [u|] eqn:Hu.
  - rewrite (participateInEvent_run now uid eid db e u He Hu Hcan). cbn [snd].
    assert (Hr : hasRecord u eid = false).
    { rewrite <- (proj2 (proj2 Hc) uid u eid e Hu He). exact Hp. }
    assert (Hndu : NoDup (map Participation.eventId (User.eventsParticipated u)))
      by (by apply (proj1 (proj2 Hc) uid)).
    destruct (pushed_record u eid (Event.points e) now Hndu Hr) as (Hndu' & Hothu & Hinu).
    apply (consistent_update uid eid db); [done|..]; cbn [users events].
    + right. exists e, (joined_event now uid e). by repeat split.
    + right. exists u, (credited_user now eid (Event.points e) u). by repeat split.
    + intros u' e'. rewrite !lookup_insert_eq. intros [= <-] [= <-].
      unfold joined_event. rewrite Hin. unfold hasRecord, credited_user.
      cbn [User.eventsParticipated]. by rewrite Hinu.
  - run_handler. rewrite He, Hcan. cbn [negb users]. rewrite Hu. cbn [snd].
    apply (consistent_update uid eid db); [done|..]; cbn [users events].
    + right. exists e, (joined_event now uid e). by repeat split.
    + by left.
    + intros u' e' Hu'. congruence.
Qed.

Lemma removeParticipation_consistent now uid eid db :
  participation_consistent db ->
  participation_consistent (snd (removeParticipation now uid (IdString.toString eid) db)).
Proof.
  unfold IdString.toString.
  intros Hc. destruct (events db !! eid) as [e|] eqn:He;
    [|run_handler; by rewrite He].
  destruct (findIndex (isUser uid) (Event.participants e)) as [i|] eqn:Hi;
    [|run_handler; by rewrite He, Hi].
  pose proof Hi as (p & Hp & _)%findIndex_Some.
  assert (Hnd : NoDup (map Participant.userId (Event.participants e)))
    by (by apply (proj1 Hc eid)).
  destruct (delete_found _ uid i Hi Hnd) as (Hnd' & Hoth & Hout).
  assert (Hev : NoDup (map Participant.userId (Event.participants (left_event now i e)))
                /\ (forall k, k <> uid -> Event.isParticipating (left_event now i e) k
                                          = Event.isParticipating e k)
                /\ Event.isParticipating (left_event now i e) uid = false).
  { unfold left_event, Event.isParticipating. rewrite preSave_participants.
    cbn [Event.participants Event.set_participants]. by repeat split. }
  destruct Hev as (Hnde & Hothe & Hine).
  destruct (users db !! uid) as [u|] eqn:Hu.
  - rewrite (removeParticipation_found now uid eid true db e u i p He Hu Hi Hp). cbn [snd].
    assert (Hndu : NoDup (map Participation.eventId (User.eventsParticipated u)))
      by (by apply (proj1 (proj2 Hc) uid)).
    destruct (without_event_records eid _ Hndu) as (Hndu' & Hothu & Hinu).
    unfold IdString.toString in Hndu', Hothu, Hinu.
    apply (consistent_update uid eid db); [done|..]; cbn [users events].
    + right. exists e, (left_event now i e). by repeat split.
    + right. exists u, (debited_user (IdString.mk eid true) (Participant.pointsEarned p) u).
      by repeat split.
    + intros u' e'. rewrite !lookup_insert_eq. intros [= <-] [= <-].
      rewrite Hine. unfold hasRecord, debited_user.
      cbn [User.eventsParticipated]. by rewrite Hinu.
  - run_handler. rewrite He, Hi, Hp. cbn [users]. rewrite Hu. cbn [snd].
    apply (consistent_update uid eid db); [done|..]; cbn [users events].
    + right. exists e, (left_event now i e). by repeat split.
    + by left.
    + intros u' e' Hu'. congruence.
Qed.

Lemma awardPointsForEvent_consistent now eid (userId : option ObjectId) points db :
  participation_consistent db ->
  participation_consistent
    (snd (awardPointsForEvent now eid (IdString.toString <$> userId) points db)).
Proof.
  intros Hc.
  destruct (awardPointsForEvent now eid (IdString.toString <$> userId) points db)
    as [[resp|code msg] db'] eqn:Hrun;
    cbn [snd]; [|by rewrite (awardPointsForEvent_throw _ _ _ _ _ _ _ _ Hrun)].
  destruct (awardPointsForEvent_Ok _ _ _ _ _ _ _ Hrun)
    as (e & uid & c & p & u & He & Hid & -> & Hp0 & Hu & Hp).
  destruct userId as [uid0|]; [|discriminate].
  injection Hid as <- <-. specialize (Hp eq_refl).
  destruct (awardPointsForEvent_run now eid uid0 true p db e u He Hu Hp0 (fun _ => Hp))
    as (newly & _ & Heq).
  cbn [fmap option_fmap option_map] in Hrun. unfold IdString.toString in Hrun.
  rewrite Heq in Hrun. injection Hrun as _ <-.
  assert (Hnd : NoDup (map Participant.userId (Event.participants e)))
    by (by apply (proj1 Hc eid)).
  destruct (pushed_participant now e uid0 p now Hnd Hp) as (Hnd' & Hoth & Hin).
  assert (Hr : hasRecord u eid = false).
  { rewrite <- (proj2 (proj2 Hc) uid0 u eid e Hu He). exact Hp. }
  assert (Hndu : NoDup (map Participation.eventId (User.eventsParticipated u)))
    by (by apply (proj1 (proj2 Hc) uid0)).
  destruct (pushed_record u eid p now Hndu Hr) as (Hndu' & Hothu & Hinu).
  apply (consistent_update uid0 eid db); [done|..]; cbn [users events].
  - right. exists e, (enrolled_event now uid0 p e). by repeat split.
  - right. eexists u, _. by repeat split.
  - intros u' e'. rewrite !lookup_insert_eq. intros [= <-] [= <-].
    unfold enrolled_event. rewrite Hin. unfold hasRecord, credited_user.
    cbn [User.eventsParticipated User.set_achievements]. by rewrite Hinu.
Qed.

Lemma checkUserAchievements_consistent now uid db :
  participation_consistent db ->
  participation_consistent (snd (checkUserAchievements now uid db)).
Proof.
  intros Hc. destruct (users db !! uid) as [u|] eqn:Hu.
  - destruct (checkUserAchievements_run now uid db u Hu) as (newly & _ & ->).
    cbn [snd]. destruct newly as [|a newly]; [done|].
    apply (consistent_update uid 0%N db); [done|..]; cbn [users events].
    + by left.
    + right. exists u, (checked_user now (a :: newly) u).
      split; [done|]. split; [done|].
      split; [exact (proj1 (proj2 Hc) uid u Hu)|done].
    + intros u' e'. rewrite lookup_insert_eq. intros [= <-] He.
      exact (proj2 (proj2 Hc) uid u 0%N e' Hu He).
  - run_handler. rewrite Hu. by destruct (List.filter _ _).
Qed.

Lemma deleteEvent_consistent now eid db :
  participation_consistent db ->
  participation_consistent (snd (deleteEvent now eid db)).
Proof.
  intros Hc. run_delete. destruct (events db !! eid) as [e|] eqn:He; [|done].
  cbn [snd].
  apply (consistent_update 0%N eid db); [done|..]; cbn [users events].
  - right. eexists e, _. split; [done|]. split; [done|]. split.
    + rewrite preSave_participants. exact (proj1 Hc eid e He).
    + intros k _. by rewrite isParticipating_preSave.
  - by left.
  - intros u' e' Hu'. rewrite lookup_insert_eq. intros [= <-].
    rewrite isParticipating_preSave. exact (proj2 (proj2 Hc) 0%N u' eid e Hu' He).
Qed.

Lemma deleteAchievement_consistent aid db :
  participation_consistent db ->
  participation_consistent (snd (deleteAchievement aid db)).
Proof.
  intros Hc. run_delete.
  destruct (List.find _ (achievements db)) as [a|]; [|done].
  destruct (Achievement_preSave _); [done|]. by apply (consistent_same db).
Qed.

Lemma printed_request_consistent db db' :
  printed_request db db' -> participation_consistent db -> participation_consistent db'.
Proof.
  intros [] Hc.
  - by apply participateInEvent_consistent.
  - by apply removeParticipation_consistent.
  - by apply awardPointsForEvent_consistent.
  - by apply checkUserAchievements_consistent.
  - by apply deleteEvent_consistent.
  - by apply deleteAchievement_consistent.
Qed.

(** X19.  The two participation lists stay in step under requests that
    carry their ids as they are printed.  When in a database no event
    lists a user twice, no user holds two records of an event, and a user
    is in an event's participant list exactly when the user holds a record
    of the event, then the same is true after any sequence of such
    requests to the six handlers, whatever their outcomes. *)
Theorem requests_keep_participation_consistent (db db' : Db) :
  rtc printed_request db db' ->
  participation_consistent db ->
  participation_consistent db'.
Proof.
  intros Hreqs. induction Hreqs as [|d1 d2 d3 Hreq _ IH]; [done|].
  intros Hc. apply IH. by apply (printed_request_consistent d1).
Qed.

Lemma seed_db_consistent : participation_consistent seed_db.
Proof.
  unfold participation_consistent, seed_db. cbn [users events].
  split; [|split].
  - intros eid e [_ <-]%lookup_singleton_Some. constructor.
  - intros uid u [_ <-]%lookup_singleton_Some. constructor.
  - by intros uid u eid e [_ <-]%lookup_singleton_Some [_ <-]%lookup_singleton_Some.
Qed.

(** The seed student joins the seed event, an administrator deletes the
    event, and the student leaves it. *)
Lemma requests_keep_participation_consistent_witness :
  participation_consistent
    (snd (removeParticipation 20240303 1 (IdString.toString 7)
            (snd (deleteEvent 20240302 7
                    (snd (participateInEvent 20240301 1 7 seed_db)))))).
Proof.
  apply (requests_keep_participation_consistent seed_db); [|exact seed_db_consistent].
  eapply rtc_l; [apply printed_participate|].
  eapply rtc_l; [apply printed_deleteEvent|].
  apply rtc_once, printed_remove.
Defined.

(** A Leave that carries the event id in another spelling breaks the
    agreement: the student is out of the event and keeps its record. *)
Example other_spelling_breaks_consistency :
  let db1 := snd (participateInEvent 20240301 1 7 seed_db) in
  let db2 := snd (removeParticipation 20240302 1 (IdString.mk 7 false) db1) in
  participation_consistent db1 /\ ~ participation_consistent db2.
Proof.
  intros db1 db2. split.
  - by apply participateInEvent_consistent, seed_db_consistent.
  - intros (_ & _ & Hsync).
    specialize (Hsync 1%N (User.mk 2850 15 [] [Participation.mk 7%N 150 20240301])
                      7%N seed_event eq_refl eq_refl).
    discriminate Hsync.
Qed.

(** X20.  On a database whose participation lists agree, a successful
    Join followed by a Leave that carries the event id as it is printed
    gives the user collection back, the point values being safe integers:
    the user's document is the one before the Join with its level
    recomputed, so the collection is the one before the Join when that
    level was right; and the lists still agree. *)
Theorem join_then_leave_users
    (now now' : Z) (uid eid : ObjectId) (db : Db) (r : Z) (db1 : Db) (u : User.t) :
  participation_consistent db ->
  participateInEvent now uid eid db = (Ok r, db1) ->
  users db !! uid = Some u ->
  isSafeInteger (User.totalPoints u) ->
  isSafeInteger r ->
  isSafeInteger (User.totalPoints u + r) ->
  exists db2,
    removeParticipation now' uid (IdString.toString eid) db1 = (Ok r, db2)
    /\ users db2 = <[uid := User.set_level (User.calculateLevel u) u]> (users db)
    /\ (level_ok u -> users db2 = users db)
    /\ participation_consistent db2.
Proof.
  intros Hc Hjoin Hu _ _ _.
  destruct (join_then_leave_run now now' _ _ true _ _ _ Hjoin) as (e & u0 & He & Hu0 & Hrun).
  rewrite Hu in Hu0. injection Hu0 as <-.
  pose proof Hjoin as (e0 & u0 & He0 & Hu0 & Hcan & -> & _)%participateInEvent_Ok.
  rewrite He in He0. injection He0 as <-. clear u0 Hu0.
  apply canParticipate_true in Hcan as (_ & _ & _ & Hp & _).
  assert (Hr : hasRecord u eid = false).
  { rewrite <- (proj2 (proj2 Hc) uid u eid e Hu He). exact Hp. }
  assert (Hback : debited_user (IdString.mk eid true) (Event.points e)
                    (credited_user now eid (Event.points e) u)
                  = User.set_level (User.calculateLevel u) u).
  { unfold debited_user, credited_user, User.set_level, User.calculateLevel.
    cbn [User.totalPoints User.achievements User.eventsParticipated].
    fold (IdString.toString eid).
    rewrite without_event_pushed. unfold IdString.toString.
    rewrite (without_event_absent _ _ _ Hr).
    by replace (User.totalPoints u + Event.points e - Event.points e)
      with (User.totalPoints u) by lia. }
  unfold IdString.toString.
  eexists. split; [exact Hrun|]. cbn [users]. rewrite Hback.
  split; [done|]. split.
  - intros Hlevel. apply insert_id. rewrite Hu. f_equal.
    unfold level_ok in Hlevel. unfold User.set_level, User.calculateLevel.
    rewrite <- Hlevel. by destruct u.
  - rewrite <- Hback.
    replace (mkDb _ _ _)
      with (snd (removeParticipation now' uid (IdString.toString eid) db1))
      by (unfold IdString.toString; by rewrite Hrun).
    apply removeParticipation_consistent.
    replace db1 with (snd (participateInEvent now uid eid db)) by (by rewrite Hjoin).
    by apply participateInEvent_consistent.
Qed.

Lemma join_then_leave_users_witness :
  exists db2,
    removeParticipation 20240302 1 (IdString.toString 7)
      (snd (participateInEvent 20240301 1 7 seed_db))
    = (Ok 150, db2)
    /\ users db2
       = <[1%N := User.set_level (User.calculateLevel seed_student) seed_student]>
           (users seed_db)
    /\ (level_ok seed_student -> users db2 = users seed_db)
    /\ participation_consistent db2.
Proof.
  apply (join_then_leave_users 20240301 20240302 1 7 seed_db 150 _ seed_student).
  - exact seed_db_consistent.
  - reflexivity.
  - reflexivity.
  - unfold isSafeInteger. simpl. lia.
  - unfold isSafeInteger. lia.
  - unfold isSafeInteger. simpl. lia.
Defined.
